(** * taish client: a shallow embedding of [tools/taish/client/taish/__init__.py]

    The development follows the Python module top-down: Python values and
    exceptions, the protobuf messages the client exchanges with the remote
    service, the remote stub as a record of handlers over an abstract
    service state, a state-and-exception monad for the coroutines of
    [AsyncClient], the object model ([Module], [NetIf], [HostIf]) and the
    thread-and-queue bridge of [Client]. *)

From stdpp Require Import gmap strings list fin_maps pretty.

Open Scope string_scope.
Open Scope Z_scope.

(** ** Python values and exceptions *)

(** Attribute values handed to the client: [None], an [int] or a [str]. *)
Inductive PyVal :=
| PyNone
| PyInt (z : Z)
| PyStr (s : string).

(** [str(value)] *)
Definition str (v : PyVal) : string :=
  match v with
  | PyNone => "None"
  | PyInt z => pretty z
  | PyStr s => s
  end.

(** Truth value of [value] in [if value:]. *)
Definition truthy (v : PyVal) : bool :=
  match v with
  | PyNone => false
  | PyInt z => negb (z =? 0)
  | PyStr s => negb (String.eqb s EmptyString)
  end.

(** The exceptions the module raises or lets through.  [TAIException] is the
    class defined in the module; [PyException] is a plain [Exception(msg)];
    [StubError] stands for whatever the grpc stub raises from a stream
    operation.  All of them derive from [Exception]. *)
Inductive Exn :=
| TAIException (code : Z) (msg : string)
| PyException (msg : string)
| UnboundLocalError (var : string)
| TypeError (msg : string)
| AttributeError (name : string)
| KeyError (key : string)
| IndexError
| StubError (detail : string).

Inductive Outcome (A : Type) :=
| Ok (a : A)
| Raised (e : Exn).
Arguments Ok {A} a.
Arguments Raised {A} e.

(** [check_metadata]: the status footer is a numeric code and a message;
    a code other than zero raises [TAIException(code, msg)]. *)
Definition check_metadata (code : Z) (msg : string) : option Exn :=
  if negb (code =? 0) then Some (TAIException code msg) else None.

(** [l[i]] on a Python list: a negative index counts from the end, an index
    out of range raises [IndexError] (here [None]). *)
Definition py_index {A} (l : list A) (i : Z) : option A :=
  if 0 <=? i then l !! Z.to_nat i
  else if 0 <=? Z.of_nat (length l) + i then l !! Z.to_nat (Z.of_nat (length l) + i)
  else None.

(** ** Messages of [taish_pb2] as the client uses them *)

Inductive TAIObjectType := UNKNOWN | MODULE | NETIF | HOSTIF.

Record SerializeOption := {
  human : bool;
  value_only : bool;
  json : bool
}.

(** [set_default_serialize_option] *)
Definition set_default_serialize_option : SerializeOption :=
  {| human := true; value_only := true; json := false |}.

Definition with_json (o : SerializeOption) (j : bool) : SerializeOption :=
  {| human := human o; value_only := value_only o; json := j |}.

(** [AttributeMetadata]: the descriptor of an attribute. *)
Record AttributeMetadata := {
  md_attr_id : Z;
  md_short_name : string;
  md_usage : string
}.

(** [Attribute]: an id and a serialized value. *)
Record Attribute := {
  at_attr_id : Z;
  at_value : string
}.

(** The records of a [ListModule] reply. *)
Record IfRec := {
  if_index : Z;
  if_oid : Z
}.

Record ModuleRec := {
  mr_location : string;
  mr_present : bool;
  mr_oid : Z;
  mr_netifs : list IfRec;
  mr_hostifs : list IfRec
}.

Inductive Level := DEBUG | INFO | NOTICE | WARN | ERROR | CRITICAL.
Inductive Api := MODULE_API | NETIF_API | HOSTIF_API | UNSPECIFIED_API.

(** An attribute reference: an [int] id, a [str] name, or a descriptor. *)
Inductive AttrRef :=
| ById (i : Z)
| ByName (n : string)
| Resolved (m : AttributeMetadata).

(** The request messages, one constructor per message type, fields in the
    order the client fills them. *)
Inductive Request :=
| ListModuleRequest
| ListAttributeMetadataRequest (object_type : TAIObjectType) (oid : Z) (location : string)
| GetAttributeCapabilityRequest (oid : Z) (attr_id : Z) (opt : SerializeOption)
| GetAttributeMetadataRequest (object_type : TAIObjectType) (oid : Z) (location : string)
    (attr_id : Z) (attr_name : string) (opt : SerializeOption)
| CreateRequest (object_type : TAIObjectType) (module_id : Z) (attrs : list Attribute)
    (opt : SerializeOption)
| RemoveRequest (oid : Z)
| SetAttributeRequest (oid : Z) (attributes : list Attribute) (opt : SerializeOption)
| GetAttributeRequest (oid : Z) (attributes : list Attribute) (opt : SerializeOption)
| MonitorRequest (oid : Z) (notification_attr_id : Z) (opt : SerializeOption)
| SetLogLevelRequest (level : Level) (api : Api).

Inductive Rpc :=
| RpcListModule
| RpcListAttributeMetadata
| RpcGetAttributeCapability
| RpcGetAttributeMetadata
| RpcCreate
| RpcRemove
| RpcSetAttribute
| RpcGetAttribute
| RpcMonitor
| RpcSetLogLevel.

(** ** The remote stub *)

(** What one request/response exchange on a stream yields: either a stream
    operation raises, or a response arrives together with the status footer
    (code and message) of the trailing metadata. *)
Inductive Exchange (A : Type) :=
| Fault (e : Exn)
| Reply (res : A) (code : Z) (msg : string).
Arguments Fault {A} e.
Arguments Reply {A} res code msg.

(** [taish_grpc.TAIStub] is generated code; it is taken as a record of
    handlers over a service state [S].  [ListModule],
    [ListAttributeMetadata] and [SetLogLevel] are called directly
    ([await self.stub.X(req)]); the others are used through [.open()]. *)
Record Stub (S : Type) := {
  ListModule : S -> S * Outcome (list ModuleRec);
  ListAttributeMetadata : Request -> S -> S * Outcome (list AttributeMetadata);
  GetAttributeCapability : Request -> S -> S * Exchange string;
  GetAttributeMetadata : Request -> S -> S * Exchange AttributeMetadata;
  Create : Request -> S -> S * Exchange Z;
  Remove : Request -> S -> S * Exchange unit;
  SetAttribute : Request -> S -> S * Exchange unit;
  GetAttribute : Request -> S -> S * Exchange (list Attribute);
  Monitor : Request -> S -> S * option Exn;
  MonitorRecv : S -> S * Outcome string;
  SetLogLevel : Request -> S -> S * option Exn
}.
Arguments ListModule {S}.
Arguments ListAttributeMetadata {S}.
Arguments GetAttributeCapability {S}.
Arguments GetAttributeMetadata {S}.
Arguments Create {S}.
Arguments Remove {S}.
Arguments SetAttribute {S}.
Arguments GetAttribute {S}.
Arguments Monitor {S}.
Arguments MonitorRecv {S}.
Arguments SetLogLevel {S}.

(** What the client does to the stub, in order. *)
Inductive Event :=
| EvOpen (rpc : Rpc)
| EvSend (req : Request)
| EvRecv (rpc : Rpc)
| EvClose (rpc : Rpc)
| EvCall (rpc : Rpc) (req : Request).

(** ** The world a coroutine runs in *)

(** The service state, the log of stub operations, and the Python lists
    that callers pass as [attrs] (a list is an object: it is passed by
    reference and [append] changes it in place). *)
Record World (S : Type) := {
  srv : S;
  trace : list Event;
  heap : gmap nat (list (AttrRef * PyVal))
}.
Arguments srv {S}.
Arguments trace {S}.
Arguments heap {S}.

Definition M (S A : Type) : Type := World S -> Outcome A * World S.

Definition ret {S A} (a : A) : M S A := fun w => (Ok a, w).
Definition raise {S A} (e : Exn) : M S A := fun w => (Raised e, w).
Definition bind {S A B} (m : M S A) (k : A -> M S B) : M S B :=
  fun w =>
    match m w with
    | (Ok a, w1) => k a w1
    | (Raised e, w1) => (Raised e, w1)
    end.

Declare Scope coro_scope.
Delimit Scope coro_scope with coro.
Notation "'await' x <- m 'then' k" := (bind m (fun x => k))
  (at level 10, x name, m at level 100, k at level 200) : coro_scope.
Notation "'await_' m 'then' k" := (bind m (fun _ => k))
  (at level 10, m at level 100, k at level 200) : coro_scope.
Open Scope coro_scope.

Definition emit {S} (e : Event) (w : World S) : World S :=
  {| srv := srv w; trace := trace w ++ [e]; heap := heap w |}.

Definition with_srv {S} (s : S) (w : World S) : World S :=
  {| srv := s; trace := trace w; heap := heap w |}.

Definition with_heap {S} (h : gmap nat (list (AttrRef * PyVal))) (w : World S) : World S :=
  {| srv := srv w; trace := trace w; heap := h |}.

(** [async with self.stub.X.open() as stream: body]: the stream is opened,
    the body runs, and the stream is released on every exit path. *)
Definition open {S A} (rpc : Rpc) (body : M S A) : M S A :=
  fun w =>
    let '(r, w1) := body (emit (EvOpen rpc) w) in
    (r, emit (EvClose rpc) w1).

(** [send_message(req)], [recv_message()], [recv_trailing_metadata()],
    [check_metadata(...)]: one request, one response, the status footer. *)
Definition send_recv {S A} (rpc : Rpc) (handler : Request -> S -> S * Exchange A)
    (req : Request) : M S A :=
  fun w =>
    let w1 := emit (EvSend req) w in
    let '(s1, x) := handler req (srv w1) in
    let w2 := emit (EvRecv rpc) (with_srv s1 w1) in
    match x with
    | Fault e => (Raised e, w2)
    | Reply res code msg =>
        match check_metadata code msg with
        | Some e => (Raised e, w2)
        | None => (Ok res, w2)
        end
    end.

(** A direct call [await self.stub.X(req)]. *)
Definition call {S A} (rpc : Rpc) (handler : S -> S * Outcome A) (req : Request) : M S A :=
  fun w =>
    let w1 := emit (EvCall rpc req) w in
    let '(s1, r) := handler (srv w1) in
    (r, with_srv s1 w1).

(** How many streams a log shows opened. *)
Definition is_open (e : Event) : bool :=
  match e with EvOpen _ => true | _ => false end.

Definition opens (t : list Event) : nat := length (List.filter is_open t).

Definition lift {S A} (r : Outcome A) : M S A := fun w => (r, w).

(** ** The object model *)

(** Who an object's [client] field points at: an [AsyncClient], or the
    synchronous [Client] that owns a worker thread. *)
Inductive ClientRef := async_client | sync_client.

(** [Module(client, obj)].  [obj] is the protobuf record when the object is
    built by [list] or [get_module]; [create_netif] and [create_hostif]
    store an element of the dictionary returned by [list] in [self.obj],
    which is a [Module], and the properties then read through it. *)
Inductive ModuleObj :=
| Module_ (client : ClientRef) (obj : ModuleData)
with ModuleData :=
| PbModule (r : ModuleRec)
| AModule (m : ModuleObj).

(** [NetIf(client, obj, module)] and [HostIf(client, obj, module)]; they
    differ in the object type they pass to [TAIObject.__init__]. *)
Inductive IfObj :=
| Interface (object_type : TAIObjectType) (client : ClientRef) (obj : IfData) (module : ModuleObj)
with IfData :=
| PbIf (r : IfRec)
| AnIf (n : IfObj).

Definition NetIf := Interface NETIF.
Definition HostIf := Interface HOSTIF.

(** A [TAIObject] of either class. *)
Inductive TAIObject :=
| OfModule (m : ModuleObj)
| OfIf (i : IfObj).

Definition client_of (m : ModuleObj) : ClientRef :=
  match m with Module_ c _ => c end.

Definition obj_of (m : ModuleObj) : ModuleData :=
  match m with Module_ _ o => o end.

(** The record the properties [oid], [location], [present] end up
    reading: [self.obj.x] is a field of the record, or the same property
    of the [Module] stored in [obj]. *)
Fixpoint record (m : ModuleObj) : ModuleRec :=
  match m with
  | Module_ _ o => data_record o
  end
with data_record (o : ModuleData) : ModuleRec :=
  match o with
  | PbModule r => r
  | AModule m => record m
  end.

Fixpoint if_record (i : IfObj) : IfRec :=
  match i with
  | Interface _ _ o _ => if_data_record o
  end
with if_data_record (o : IfData) : IfRec :=
  match o with
  | PbIf r => r
  | AnIf n => if_record n
  end.

Definition if_client (i : IfObj) : ClientRef :=
  match i with Interface _ c _ _ => c end.

Definition if_module (i : IfObj) : ModuleObj :=
  match i with Interface _ _ _ m => m end.

Definition object_type (o : TAIObject) : TAIObjectType :=
  match o with
  | OfModule _ => MODULE
  | OfIf (Interface t _ _ _) => t
  end.

Definition oid (o : TAIObject) : Z :=
  match o with
  | OfModule m => mr_oid (record m)
  | OfIf i => if_oid (if_record i)
  end.

Definition owner (o : TAIObject) : ClientRef :=
  match o with
  | OfModule m => client_of m
  | OfIf i => if_client i
  end.

(** [self.obj.netifs] and the property [Module.netifs]: the list of the
    record, or the [NetIf] objects the stored [Module] builds. *)
Fixpoint netifs (m : ModuleObj) : list IfObj :=
  match m with
  | Module_ c o => map (fun d => NetIf c d (Module_ c o)) (obj_netifs o)
  end
with obj_netifs (o : ModuleData) : list IfData :=
  match o with
  | PbModule r => map PbIf (mr_netifs r)
  | AModule m => map AnIf (netifs m)
  end.

Fixpoint hostifs (m : ModuleObj) : list IfObj :=
  match m with
  | Module_ c o => map (fun d => HostIf c d (Module_ c o)) (obj_hostifs o)
  end
with obj_hostifs (o : ModuleData) : list IfData :=
  match o with
  | PbModule r => map PbIf (mr_hostifs r)
  | AModule m => map AnIf (hostifs m)
  end.

(** [Module.get_netif], [Module.get_hostif] *)
Definition get_netif (self : ModuleObj) (index : Z) : Outcome IfObj :=
  match py_index (obj_netifs (obj_of self)) index with
  | Some d => Ok (NetIf (client_of self) d self)
  | None => Raised IndexError
  end.

Definition get_hostif (self : ModuleObj) (index : Z) : Outcome IfObj :=
  match py_index (obj_hostifs (obj_of self)) index with
  | Some d => Ok (HostIf (client_of self) d self)
  | None => Raised IndexError
  end.

(** ** [class AsyncClient] *)

(** An entry of the [attributes] argument of [get_multiple]: a bare
    reference, or a tuple of a reference and a value. *)
Inductive GetArg :=
| Bare (attr : AttrRef)
| Hinted (attr : AttrRef) (value : PyVal).

(** An entry of the list [get_multiple] returns: the serialized value, or
    the tuple of the value and a descriptor. *)
Inductive GetItem :=
| Plain (value : string)
| WithMeta (value : string) (meta : AttributeMetadata).

(** The [object_type] argument of [create]: a type tag or a [str]. *)
Inductive ObjTypeArg :=
| Tag (t : TAIObjectType)
| Name (s : string).

(** A callback of [monitor]: it returns, or raises. *)
Definition Callback := TAIObject -> AttributeMetadata -> string -> option Exn.

(** What [monitor] is doing when the model stops following its loop. *)
Inductive Running := StillRunning.

(** [key == "location"] on a key of an [attrs] entry. *)
Definition is_location (key : AttrRef) : bool :=
  match key with
  | ByName n => String.eqb n "location"
  | _ => false
  end.

(** The [for ... else] of [create] that looks for the location. *)
Fixpoint find_location (attrs : list (AttrRef * PyVal)) : option PyVal :=
  match attrs with
  | [] => None
  | (key, value) :: rest =>
      if is_location key then Some value else find_location rest
  end.

(** ["{}".format(attr_id)] *)
Definition format (attr_id : AttrRef) : string :=
  match attr_id with
  | ById i => pretty i
  | ByName n => n
  | Resolved m => md_short_name m
  end.

Module AsyncClient.
Section WithStub.
Context {St : Type} (stub : Stub St).

(** Reading the list object behind a reference. *)
Definition deref (r : nat) : M St (list (AttrRef * PyVal)) :=
  fun w => (Ok (default [] (heap w !! r)), w).

Definition list_attribute_metadata (object_type : TAIObjectType) (oid : Z)
    (location : string) : M St (list AttributeMetadata) :=
  let req := ListAttributeMetadataRequest object_type oid location in
  call RpcListAttributeMetadata (ListAttributeMetadata stub req) req.

(** [location] is a string wherever the module passes it, except in
    [create], where it is the value found in [attrs]; protobuf refuses
    ([TypeError]) a value that is not a [str]. *)
Definition get_attribute_metadata (object_type : TAIObjectType) (attr : AttrRef)
    (oid : Z) (location : PyVal) : M St AttributeMetadata :=
  open RpcGetAttributeMetadata
    match location with
    | PyStr loc =>
        match attr with
        | ById i =>
            send_recv RpcGetAttributeMetadata (GetAttributeMetadata stub)
              (GetAttributeMetadataRequest object_type oid loc i EmptyString
                 set_default_serialize_option)
        | ByName n =>
            send_recv RpcGetAttributeMetadata (GetAttributeMetadata stub)
              (GetAttributeMetadataRequest object_type oid loc 0 n
                 set_default_serialize_option)
        | Resolved _ => raise (PyException "invalid argument")
        end
    | _ => raise (TypeError "location")
    end.

(** [get_attribute_metadata(0, attr, oid=oid)]: the type tag is [0]. *)
Definition get_attribute_capability (oid : Z) (attr : AttrRef) (json : bool)
    : M St string :=
  open RpcGetAttributeCapability
    (await attr_id <-
       match attr with
       | ById i => ret i
       | ByName _ =>
           await meta <- get_attribute_metadata UNKNOWN attr oid (PyStr EmptyString) then
           ret (md_attr_id meta)
       | Resolved m => ret (md_attr_id m)
       end then
     send_recv RpcGetAttributeCapability (GetAttributeCapability stub)
       (GetAttributeCapabilityRequest oid attr_id
          (with_json set_default_serialize_option json))).

(** The loop of [get_module] over the listing. *)
Fixpoint get_module_scan (location : string) (future : list ModuleRec)
    : Outcome ModuleObj :=
  match future with
  | [] => Raised (TAIException (-1) ("no module " +:+ location +:+ " found"))
  | m :: rest =>
      if negb (String.eqb (mr_location m) location) then get_module_scan location rest
      else if negb (mr_present m) then
        Raised (TAIException (-1) ("module " +:+ location +:+ " not present"))
      else if mr_oid m =? 0 then
        Raised (TAIException (-1) ("module " +:+ location +:+ " not created yet"))
      else Ok (Module_ async_client (PbModule m))
  end.

Definition get_module (location : string) : M St ModuleObj :=
  await future <- call RpcListModule (ListModule stub) ListModuleRequest then
  lift (get_module_scan location future).

Definition remove (oid : Z) : M St unit :=
  open RpcRemove (send_recv RpcRemove (Remove stub) (RemoveRequest oid)).

(** The loop of [set_multiple] that fills [req.attributes]. *)
Fixpoint set_attributes (object_type : TAIObjectType) (oid : Z)
    (attributes : list (AttrRef * PyVal)) : M St (list Attribute) :=
  match attributes with
  | [] => ret []
  | (attr, value) :: rest =>
      await attr_id <-
        match attr with
        | ById i => ret i
        | ByName _ =>
            await metadata <- get_attribute_metadata object_type attr oid (PyStr EmptyString) then
            ret (md_attr_id metadata)
        | Resolved m => ret (md_attr_id m)
        end then
      await more <- set_attributes object_type oid rest then
      ret ({| at_attr_id := attr_id; at_value := str value |} :: more)
  end.

Definition set_multiple (object_type : TAIObjectType) (oid : Z)
    (attributes : list (AttrRef * PyVal)) : M St unit :=
  open RpcSetAttribute
    (await attrs <- set_attributes object_type oid attributes then
     send_recv RpcSetAttribute (SetAttribute stub)
       (SetAttributeRequest oid attrs set_default_serialize_option)).

Definition set (object_type : TAIObjectType) (oid : Z) (attr_id : AttrRef)
    (value : PyVal) : M St unit :=
  set_multiple object_type oid [(attr_id, value)].

(** The first loop of [get_multiple].  [meta] and [a] are the function's
    local variables of these names ([None] while unbound); they live
    across iterations.  [req.attributes.append(a)] stores a copy of the
    message (protobuf repeated fields copy on append), so the assignment
    [a.value = str(value)] of the descriptor branch changes the local
    message of the previous iteration only, which the next statement
    replaces. *)
Fixpoint get_attributes (object_type : TAIObjectType) (oid : Z) (with_metadata : bool)
    (attributes : list GetArg) (meta : option AttributeMetadata) (a : option Attribute)
    (req : list Attribute) : M St (option AttributeMetadata * list Attribute) :=
  match attributes with
  | [] => ret (meta, req)
  | arg :: rest =>
      let '(attr, value) :=
        match arg with
        | Bare r => (r, PyNone)
        | Hinted r v => (r, v)
        end in
      await st <-
        match attr with
        | ById i =>
            if with_metadata then
              await m <- get_attribute_metadata object_type attr oid (PyStr EmptyString) then
              ret (i, Some m)
            else ret (i, meta)
        | ByName _ =>
            await m <- get_attribute_metadata object_type attr oid (PyStr EmptyString) then
            ret (md_attr_id m, Some m)
        | Resolved m =>
            if truthy value then
              match a with
              | None => raise (UnboundLocalError "a")
              | Some _ => ret (md_attr_id m, Some m)
              end
            else ret (md_attr_id m, Some m)
        end then
      let a1 := {| at_attr_id := fst st; at_value := EmptyString |} in
      get_attributes object_type oid with_metadata rest (snd st) (Some a1) (req ++ [a1])
  end.

(** The second loop of [get_multiple], over [res.attributes]. *)
Fixpoint collect (with_metadata : bool) (meta : option AttributeMetadata)
    (res : list Attribute) : Outcome (list GetItem) :=
  match res with
  | [] => Ok []
  | attr :: rest =>
      if with_metadata then
        match meta with
        | None => Raised (UnboundLocalError "meta")
        | Some m =>
            match collect with_metadata meta rest with
            | Ok more => Ok (WithMeta (at_value attr) m :: more)
            | Raised e => Raised e
            end
        end
      else
        match collect with_metadata meta rest with
        | Ok more => Ok (Plain (at_value attr) :: more)
        | Raised e => Raised e
        end
  end.

Definition get_multiple (object_type : TAIObjectType) (oid : Z)
    (attributes : list GetArg) (with_metadata : bool) (json : bool)
    : M St (list GetItem) :=
  open RpcGetAttribute
    (await st <- get_attributes object_type oid with_metadata attributes None None [] then
     await res <- send_recv RpcGetAttribute (GetAttribute stub)
       (GetAttributeRequest oid (snd st) (with_json set_default_serialize_option json)) then
     lift (collect with_metadata (fst st) res)).

Definition get (object_type : TAIObjectType) (oid : Z) (attr : AttrRef)
    (with_metadata : bool) (value : PyVal) (json : bool) : M St GetItem :=
  await v <- get_multiple object_type oid [Hinted attr value] with_metadata json then
  match v with
  | [] => raise IndexError
  | x :: _ => ret x
  end.

(** A new empty list object ([attrs = []]). *)
Definition alloc : M St nat :=
  fun w =>
    let r := fresh (dom (heap w)) in
    (Ok r, with_heap (<[r := []]> (heap w)) w).

(** [attrs.append(entry)]: the list object behind [attrs] grows in place. *)
Definition append (attrs : nat) (entry : AttrRef * PyVal) : M St unit :=
  fun w =>
    (Ok tt, with_heap (<[attrs := (default [] (heap w !! attrs) ++ [entry])%list]> (heap w)) w).

(** [if attrs is None: attrs = []] *)
Definition or_new_list (attrs : option nat) : M St nat :=
  match attrs with
  | None => alloc
  | Some r => ret r
  end.

(** The [if]/[elif] chain of [create] on a [str] object type.  Another
    string stays a string, and protobuf refuses it ([TypeError]) at
    [req.object_type = object_type]. *)
Definition object_type_of (object_type : ObjTypeArg) : Outcome TAIObjectType :=
  match object_type with
  | Tag t => Ok t
  | Name s =>
      if String.eqb s "module" then Ok MODULE
      else if String.eqb s "netif" then Ok NETIF
      else if String.eqb s "hostif" then Ok HOSTIF
      else Raised (TypeError "object_type")
  end.

(** The loop of [create] that fills [req.attrs]. *)
Fixpoint create_attrs (object_type : TAIObjectType) (location : PyVal)
    (attrs : list (AttrRef * PyVal)) : M St (list Attribute) :=
  match attrs with
  | [] => ret []
  | (attr_id, value) :: rest =>
      await meta <- get_attribute_metadata object_type attr_id 0 location then
      await more <- create_attrs object_type location rest then
      ret ({| at_attr_id := md_attr_id meta; at_value := str value |} :: more)
  end.

(** [attrs] is a reference to the caller's list.  With a parent module
    the location is the value [get] returns (a string, as
    [with_metadata] is [False]). *)
Definition create (object_type : ObjTypeArg) (attrs : nat) (module_id : Z) : M St Z :=
  await location <-
    (if negb (module_id =? 0) then
       await v <- get MODULE module_id (ByName "location") false PyNone false then
       ret (match v with Plain s => PyStr s | WithMeta _ _ => PyNone end)
     else
       await l <- deref attrs then
       match find_location l with
       | Some value => ret value
       | None => raise (TAIException 14 "mandatory-attribute-missing")
       end) then
  open RpcCreate
    (await t <- lift (object_type_of object_type) then
     await l <- deref attrs then
     await req_attrs <- create_attrs t location l then
     send_recv RpcCreate (Create stub)
       (CreateRequest t module_id req_attrs set_default_serialize_option)).

Definition create_module (location : string) (attrs : option nat) : M St ModuleObj :=
  await attrs <- or_new_list attrs then
  await_ append attrs (ByName "location", PyStr location) then
  await_ create (Tag MODULE) attrs 0 then
  get_module location.

(** [stream.send_message(req)] on the notification stream. *)
Definition send (req : Request) : M St unit :=
  fun w =>
    let w1 := emit (EvSend req) w in
    let '(s1, r) := Monitor stub req (srv w1) in
    match r with
    | Some e => (Raised e, with_srv s1 w1)
    | None => (Ok tt, with_srv s1 w1)
    end.

(** [stream.recv_message()] on the notification stream. *)
Definition recv : M St string :=
  fun w =>
    let '(s1, r) := MonitorRecv stub (srv w) in
    (r, emit (EvRecv RpcMonitor) (with_srv s1 w)).

(** The [while True] of [monitor], followed for [fuel] iterations.  An
    [async] callback is awaited and a plain one is called; either way it
    runs to its end before the next message is received. *)
Fixpoint monitor_loop (fuel : nat) (obj : TAIObject) (m : AttributeMetadata)
    (callback : Callback) : M St Running :=
  match fuel with
  | O => ret StillRunning
  | S n =>
      await msg <- recv then
      match callback obj m msg with
      | Some e => raise e
      | None => monitor_loop n obj m callback
      end
  end.

(** [async with self.stub.Monitor.open() as stream: body] around a body
    that never returns: the stream is released when the body raises; as
    long as the body is running (the model has stopped following it) the
    stream stays open. *)
Definition open_while_running (rpc : Rpc) (body : M St Running) : M St Running :=
  fun w =>
    match body (emit (EvOpen rpc) w) with
    | (Ok StillRunning, w1) => (Ok StillRunning, w1)
    | (Raised e, w1) => (Raised e, emit (EvClose rpc) w1)
    end.

Definition monitor (fuel : nat) (obj : TAIObject) (attr_id : AttrRef)
    (callback : Callback) (json : bool) : M St Running :=
  open_while_running RpcMonitor
    (await m <- get_attribute_metadata (object_type obj) attr_id (oid obj) (PyStr EmptyString) then
     if negb (String.eqb (md_usage m) "<notification>") then
       raise (PyException ("the type of attribute " +:+ format attr_id +:+ " is not notification"))
     else
       await_ send (MonitorRequest (oid obj) (md_attr_id m)
                      (with_json set_default_serialize_option json)) then
       monitor_loop fuel obj m callback).

Definition level_of (l : string) : Outcome Level :=
  if String.eqb l "debug" then Ok DEBUG
  else if String.eqb l "info" then Ok INFO
  else if String.eqb l "notice" then Ok NOTICE
  else if String.eqb l "warn" then Ok WARN
  else if String.eqb l "error" then Ok ERROR
  else if String.eqb l "critical" then Ok CRITICAL
  else Raised (PyException ("invalid log level: " +:+ l +:+
                 ". choose from [debug, info, notice, warn, error, critical]")).

Definition api_of (api : string) : Outcome Api :=
  if String.eqb api "module" then Ok MODULE_API
  else if String.eqb api "netif" then Ok NETIF_API
  else if String.eqb api "hostif" then Ok HOSTIF_API
  else if String.eqb api "unspecified" then Ok UNSPECIFIED_API
  else Raised (PyException "invalid api type. choose from [module, netif, hostif, unspecified]").

Definition set_log_level (l : string) (api : string) : M St unit :=
  await level <- lift (level_of l) then
  await api <- lift (api_of api) then
  fun w =>
    let req := SetLogLevelRequest level api in
    let w1 := emit (EvCall RpcSetLogLevel req) w in
    let '(s1, r) := SetLogLevel stub req (srv w1) in
    match r with
    | Some e => (Raised e, with_srv s1 w1)
    | None => (Ok tt, with_srv s1 w1)
    end.

(** [ret[res.module.location] = Module(self, res.module)] over the
    listing: a later record at a location replaces an earlier one. *)
Definition to_dict (future : list ModuleRec) : gmap string ModuleObj :=
  foldl (fun ret m => <[mr_location m := Module_ async_client (PbModule m)]> ret) ∅ future.

Definition list : M St (gmap string ModuleObj) :=
  await future <- call RpcListModule (ListModule stub) ListModuleRequest then
  ret (to_dict future).
End WithStub.
End AsyncClient.

(** ** [class Client]: the synchronous facade *)

(** What a caller pushes on [in_q]: the name of an [AsyncClient] method with
    its arguments.  [Other name] is a name [AsyncClient] has no coroutine
    for. *)
Inductive Command :=
| c_list
| c_list_attribute_metadata (object_type : TAIObjectType) (oid : Z) (location : string)
| c_get_attribute_capability (oid : Z) (attr : AttrRef) (json : bool)
| c_get_attribute_metadata (object_type : TAIObjectType) (attr : AttrRef) (oid : Z)
    (location : string)
| c_get_module (location : string)
| c_create_module (location : string) (attrs : option nat)
| c_create (object_type : ObjTypeArg) (attrs : nat) (module_id : Z)
| c_remove (oid : Z)
| c_set (object_type : TAIObjectType) (oid : Z) (attr_id : AttrRef) (value : PyVal)
| c_set_multiple (object_type : TAIObjectType) (oid : Z) (attributes : list (AttrRef * PyVal))
| c_get (object_type : TAIObjectType) (oid : Z) (attr : AttrRef) (with_metadata : bool)
    (value : PyVal) (json : bool)
| c_get_multiple (object_type : TAIObjectType) (oid : Z) (attributes : list GetArg)
    (with_metadata : bool) (json : bool)
| c_set_log_level (l : string) (api : string)
| Other (name : string).

(** What the coroutines of [AsyncClient] return. *)
Inductive Value :=
| VNone
| VInt (z : Z)
| VStr (s : string)
| VMetadata (m : AttributeMetadata)
| VMetadataList (l : list AttributeMetadata)
| VModule (m : ModuleObj)
| VDict (d : gmap string ModuleObj)
| VItem (i : GetItem)
| VItems (l : list GetItem).

(** What travels on [out_q]: a returned value, or an exception instance. *)
Inductive PyObj :=
| Val (v : Value)
| ExnObj (e : Exn).

(** The queues, the worker thread (running or finished) and the world the
    worker's [AsyncClient] acts on. *)
Record Bridge (St : Type) := {
  in_q : list (option Command);
  out_q : list PyObj;
  alive : bool;
  world : World St
}.
Arguments in_q {St}.
Arguments out_q {St}.
Arguments alive {St}.
Arguments world {St}.

Module Client.
Section WithStub.
Context {St : Type} (stub : Stub St).

(** [f = getattr(c, fname)], then the call of [f] is awaited.  A name that
    is an attribute but no coroutine ([channel], [stub], [close],
    [__enter__], [__exit__]) ends in a [TypeError], any other unknown name
    in an [AttributeError].  [monitor] is a method of [Client] itself and
    never reaches [__getattr__]. *)
Definition invoke (i : Command) : M St Value :=
  match i with
  | c_list =>
      await d <- AsyncClient.list stub then ret (VDict d)
  | c_list_attribute_metadata t o loc =>
      await l <- AsyncClient.list_attribute_metadata stub t o loc then ret (VMetadataList l)
  | c_get_attribute_capability o attr j =>
      await s <- AsyncClient.get_attribute_capability stub o attr j then ret (VStr s)
  | c_get_attribute_metadata t attr o loc =>
      await m <- AsyncClient.get_attribute_metadata stub t attr o (PyStr loc) then
      ret (VMetadata m)
  | c_get_module loc =>
      await m <- AsyncClient.get_module stub loc then ret (VModule m)
  | c_create_module loc attrs =>
      await m <- AsyncClient.create_module stub loc attrs then ret (VModule m)
  | c_create t attrs module_id =>
      await o <- AsyncClient.create stub t attrs module_id then ret (VInt o)
  | c_remove o =>
      await_ AsyncClient.remove stub o then ret VNone
  | c_set t o attr v =>
      await_ AsyncClient.set stub t o attr v then ret VNone
  | c_set_multiple t o attrs =>
      await_ AsyncClient.set_multiple stub t o attrs then ret VNone
  | c_get t o attr with_metadata v j =>
      await x <- AsyncClient.get stub t o attr with_metadata v j then ret (VItem x)
  | c_get_multiple t o attrs with_metadata j =>
      await l <- AsyncClient.get_multiple stub t o attrs with_metadata j then ret (VItems l)
  | c_set_log_level l api =>
      await_ AsyncClient.set_log_level stub l api then ret VNone
  | Other name =>
      if bool_decide (name ∈ ["channel"; "stub"; "close"; "__enter__"; "__exit__"])
      then raise (TypeError name)
      else raise (AttributeError name)
  end.

(** [try: ... except Exception as e: ret = e] *)
Definition caught (r : Outcome Value) : PyObj :=
  match r with
  | Ok v => Val v
  | Raised e => ExnObj e
  end.

(** [if isinstance(ret, TAIObject): ret.client = self] *)
Definition rebind (ret : PyObj) : PyObj :=
  match ret with
  | Val (VModule (Module_ _ o)) => Val (VModule (Module_ sync_client o))
  | _ => ret
  end.

(** One pass through the body of [while True] in [_loop], from
    [self.in_q.get()] to [self.out_q.put(ret)]; [None] when the worker
    cannot go on (it waits on an empty [in_q], or it has returned). *)
Definition loop_body (b : Bridge St) : option (Bridge St) :=
  if alive b then
    match in_q b with
    | [] => None
    | None :: rest =>
        Some {| in_q := rest; out_q := out_q b; alive := false; world := world b |}
    | Some i :: rest =>
        let '(r, w1) := invoke i (world b) in
        Some {| in_q := rest; out_q := (out_q b ++ [rebind (caught r)])%list;
                alive := true; world := w1 |}
    end
  else None.

(** [self.in_q.put(x)] *)
Definition in_q_put (x : option Command) (b : Bridge St) : Bridge St :=
  {| in_q := (in_q b ++ [x])%list; out_q := out_q b; alive := alive b; world := world b |}.

(** [self.out_q.get()] while the worker runs: the head of [out_q] as soon
    as there is one; [None] when the caller waits for ever. *)
Fixpoint out_q_get (fuel : nat) (b : Bridge St) : option (PyObj * Bridge St) :=
  match out_q b with
  | x :: rest =>
      Some (x, {| in_q := in_q b; out_q := rest; alive := alive b; world := world b |})
  | [] =>
      match fuel with
      | O => None
      | S n =>
          match loop_body b with
          | Some b1 => out_q_get n b1
          | None => None
          end
      end
  end.

(** [if isinstance(ret, Exception): raise ret] / [return ret] *)
Definition deliver (ret : PyObj) : Outcome Value :=
  match ret with
  | ExnObj e => Raised e
  | Val v => Ok v
  end.

(** The function [f] that [__getattr__(name)] returns, called by one
    caller: the worker needs at most one pass per queued item. *)
Definition f (i : Command) (b : Bridge St) : option (Outcome Value * Bridge St) :=
  let b1 := in_q_put (Some i) b in
  match out_q_get (length (in_q b1)) b1 with
  | Some (ret, b2) => Some (deliver ret, b2)
  | None => None
  end.

(** [close]: the sentinel is queued and the worker joined. *)
Fixpoint join (fuel : nat) (b : Bridge St) : option (Bridge St) :=
  if alive b then
    match fuel with
    | O => None
    | S n =>
        match loop_body b with
        | Some b1 => join n b1
        | None => None
        end
    end
  else Some b.

Definition close (b : Bridge St) : option (Bridge St) :=
  let b1 := in_q_put None b in
  join (length (in_q b1)) b1.

(** [Client.__init__]: empty queues and a started worker. *)
Definition init (w : World St) : Bridge St :=
  {| in_q := []; out_q := []; alive := true; world := w |}.

(** A call of [f] made while the facade is at rest, seen from the world
    the worker acts on: what the caller gets, and the world afterwards.
    At rest [f] always has a reply to take, so the last branch is never
    taken. *)
Definition blocking_call (i : Command) : M St Value :=
  fun w =>
    match f i (init w) with
    | Some (r, b) => (r, world b)
    | None => (Raised (StubError "no reply"), w)
    end.
End WithStub.
End Client.

(** ** [Module.create_netif], [Module.create_hostif] *)

(** The methods are coroutines that await the calls they make on
    [self.client].  On an [AsyncClient] the call is a coroutine.  On the
    facade the call is made and returns a plain value (or raises), and the
    [await] of that value raises [TypeError].  The methods change [self]
    in place; the result pairs [self] after the call with the child
    returned. *)
Section ModuleCreate.
Context {St : Type} (stub : Stub St).

(** [await self.client.create(object_type, attrs, self.oid)] *)
Definition client_create (client : ClientRef) (object_type : ObjTypeArg) (attrs : nat)
    (module_id : Z) : M St Z :=
  match client with
  | async_client => AsyncClient.create stub object_type attrs module_id
  | sync_client =>
      await_ Client.blocking_call stub (c_create object_type attrs module_id) then
      raise (TypeError "object int can't be used in 'await' expression")
  end.

(** [await self.client.list()] *)
Definition client_list (client : ClientRef) : M St (gmap string ModuleObj) :=
  match client with
  | async_client => AsyncClient.list stub
  | sync_client =>
      await_ Client.blocking_call stub c_list then
      raise (TypeError "object dict can't be used in 'await' expression")
  end.

(** [self.obj = (await self.client.list())[self.location]] *)
Definition refresh (self : ModuleObj) : M St ModuleObj :=
  await d <- client_list (client_of self) then
  match d !! mr_location (record self) with
  | Some m => ret (Module_ (client_of self) (AModule m))
  | None => raise (KeyError (mr_location (record self)))
  end.

Definition create_netif (self : ModuleObj) (index : Z) (attrs : option nat)
    : M St (ModuleObj * IfObj) :=
  await attrs <- AsyncClient.or_new_list attrs then
  await_ AsyncClient.append attrs (ByName "index", PyInt index) then
  await_ client_create (client_of self) (Tag NETIF) attrs (mr_oid (record self)) then
  await self1 <- refresh self then
  await child <- lift (get_netif self1 index) then
  ret (self1, child).

Definition create_hostif (self : ModuleObj) (index : Z) (attrs : option nat)
    : M St (ModuleObj * IfObj) :=
  await attrs <- AsyncClient.or_new_list attrs then
  await_ AsyncClient.append attrs (ByName "index", PyInt index) then
  await_ client_create (client_of self) (Tag HOSTIF) attrs (mr_oid (record self)) then
  await self1 <- refresh self then
  await child <- lift (get_hostif self1 index) then
  ret (self1, child).
End ModuleCreate.

(** ** Several caller threads on one facade *)

(** A thread is in [waiting] from its [in_q.put] until its [out_q.get]
    returns; it is recorded with the call it made and the number of calls
    put on [in_q] before it (a history variable, as is [puts]). *)
Record Sys (St : Type) := {
  bridge : Bridge St;
  waiting : gmap nat (Command * nat);
  puts : nat
}.
Arguments bridge {St}.
Arguments waiting {St}.
Arguments puts {St}.

Inductive Label :=
| Put (t : nat) (i : Command)
| Work
| Get (t : nat) (i : Command) (ticket : nat) (ret : PyObj).

Section Threads.
Context {St : Type} (stub : Stub St).

(** The atomic steps: a thread puts its call, the worker makes one pass
    of its loop, a waiting thread takes the head of [out_q]. *)
Inductive step : Sys St -> Label -> Sys St -> Prop :=
| step_put s t i :
    waiting s !! t = None ->
    step s (Put t i)
      {| bridge := Client.in_q_put (Some i) (bridge s);
         waiting := <[t := (i, puts s)]> (waiting s);
         puts := S (puts s) |}
| step_work s b1 :
    Client.loop_body stub (bridge s) = Some b1 ->
    step s Work {| bridge := b1; waiting := waiting s; puts := puts s |}
| step_get s t i k x rest :
    waiting s !! t = Some (i, k) ->
    out_q (bridge s) = x :: rest ->
    step s (Get t i k x)
      {| bridge := {| in_q := in_q (bridge s); out_q := rest;
                      alive := alive (bridge s); world := world (bridge s) |};
         waiting := delete t (waiting s);
         puts := puts s |}.

Inductive exec : Sys St -> list Label -> Sys St -> Prop :=
| exec_nil s : exec s [] s
| exec_snoc s ls s1 l s2 :
    exec s ls s1 -> step s1 l s2 -> exec s (ls ++ [l])%list s2.

Definition start (w : World St) : Sys St :=
  {| bridge := Client.init w; waiting := ∅; puts := 0%nat |}.

(** What the worker answers to a sequence of calls handled one after
    the other, and the world it leaves. *)
Fixpoint replies (w : World St) (calls : list Command) : list PyObj :=
  match calls with
  | [] => []
  | i :: rest =>
      let '(r, w1) := Client.invoke stub i w in
      Client.rebind (Client.caught r) :: replies w1 rest
  end.

Fixpoint world_after (w : World St) (calls : list Command) : World St :=
  match calls with
  | [] => w
  | i :: rest => world_after (snd (Client.invoke stub i w)) rest
  end.
End Threads.

(** The calls of a run in the order of their [in_q.put], and the replies
    in the order of their [out_q.get]. *)
Fixpoint submitted (ls : list Label) : list Command :=
  match ls with
  | [] => []
  | Put _ i :: rest => i :: submitted rest
  | _ :: rest => submitted rest
  end.

Fixpoint delivered (ls : list Label) : list PyObj :=
  match ls with
  | [] => []
  | Get _ _ _ x :: rest => x :: delivered rest
  | _ :: rest => delivered rest
  end.

(** The label is a step of thread [t] or of the worker. *)
Definition by_thread (t : nat) (l : Label) : Prop :=
  match l with
  | Put t1 _ => t1 = t
  | Work => True
  | Get t1 _ _ _ => t1 = t
  end.

(** The owners of the objects a returned value holds. *)
Definition owners (v : Value) : list ClientRef :=
  match v with
  | VModule m => [client_of m]
  | VDict d => client_of <$> (snd <$> map_to_list d)
  | _ => []
  end.

(** ** A small remote service to run the client against *)

(** Its state is the module table.  The descriptors are the same for every
    object: [location] (1), [index] (2) and the notification [notify] (3). *)
Definition descriptors : list AttributeMetadata :=
  [ {| md_attr_id := 1; md_short_name := "location"; md_usage := "<none>" |};
    {| md_attr_id := 2; md_short_name := "index"; md_usage := "<none>" |};
    {| md_attr_id := 3; md_short_name := "notify"; md_usage := "<notification>" |} ].

Definition describes (attr_id : Z) (attr_name : string) (m : AttributeMetadata) : bool :=
  if String.eqb attr_name EmptyString then md_attr_id m =? attr_id
  else String.eqb (md_short_name m) attr_name.

Definition no_descriptor : AttributeMetadata :=
  {| md_attr_id := 0; md_short_name := EmptyString; md_usage := EmptyString |}.

Definition fake_metadata (req : Request) (s : list ModuleRec)
    : list ModuleRec * Exchange AttributeMetadata :=
  match req with
  | GetAttributeMetadataRequest _ _ _ attr_id attr_name _ =>
      match List.find (describes attr_id attr_name) descriptors with
      | Some m => (s, Reply m 0 EmptyString)
      | None => (s, Reply no_descriptor (-7) "no such attribute")
      end
  | _ => (s, Fault (StubError "unexpected message"))
  end.

(** A new interface of module [module_id] comes first in the module's
    list, with index 7. *)
Definition add_netif (module_id : Z) (m : ModuleRec) : ModuleRec :=
  if mr_oid m =? module_id then
    {| mr_location := mr_location m; mr_present := mr_present m; mr_oid := mr_oid m;
       mr_netifs := {| if_index := 7; if_oid := 1000 + mr_oid m |} :: mr_netifs m;
       mr_hostifs := mr_hostifs m |}
  else m.

Definition fake_create (req : Request) (s : list ModuleRec) : list ModuleRec * Exchange Z :=
  match req with
  | CreateRequest NETIF module_id _ _ => (map (add_netif module_id) s, Reply (1000 + module_id) 0 EmptyString)
  | CreateRequest _ _ _ _ => (s, Reply 0 (-10) "not supported")
  | _ => (s, Fault (StubError "unexpected message"))
  end.

(** The value of attribute 1 is the location of the module with the
    object id of the request; of another attribute, its id in decimal. *)
Definition fake_value (s : list ModuleRec) (oid : Z) (a : Attribute) : Attribute :=
  if at_attr_id a =? 1 then
    match List.find (fun m => mr_oid m =? oid) s with
    | Some m => {| at_attr_id := 1; at_value := mr_location m |}
    | None => {| at_attr_id := 1; at_value := EmptyString |}
    end
  else {| at_attr_id := at_attr_id a; at_value := pretty (at_attr_id a) |}.

Definition fake_get (req : Request) (s : list ModuleRec)
    : list ModuleRec * Exchange (list Attribute) :=
  match req with
  | GetAttributeRequest oid attributes _ => (s, Reply (map (fake_value s oid) attributes) 0 EmptyString)
  | _ => (s, Fault (StubError "unexpected message"))
  end.

Definition fake : Stub (list ModuleRec) :=
  {| ListModule := fun s => (s, Ok s);
     ListAttributeMetadata := fun _ s => (s, Ok descriptors);
     GetAttributeCapability := fun _ s => (s, Reply EmptyString 0 EmptyString);
     GetAttributeMetadata := fake_metadata;
     Create := fake_create;
     Remove := fun _ s => (s, Reply tt 0 EmptyString);
     SetAttribute := fun _ s => (s, Reply tt 0 EmptyString);
     GetAttribute := fake_get;
     Monitor := fun _ s => (s, None);
     MonitorRecv := fun s => (s, Ok "event");
     SetLogLevel := fun _ s => (s, None) |}.

Definition module_a : ModuleRec :=
  {| mr_location := "a"; mr_present := true; mr_oid := 5; mr_netifs := []; mr_hostifs := [] |}.

Definition module_b : ModuleRec :=
  {| mr_location := "b"; mr_present := false; mr_oid := 0; mr_netifs := []; mr_hostifs := [] |}.

Definition module_c : ModuleRec :=
  {| mr_location := "c"; mr_present := true; mr_oid := 0; mr_netifs := []; mr_hostifs := [] |}.

Definition world0 : World (list ModuleRec) :=
  {| srv := [module_a; module_b; module_c]; trace := []; heap := ∅ |}.

(** * The vocabulary of the properties *)

(** [m] is the first record of the listing at [location] (the only one
    when locations are unique). *)
Definition first_at (location : string) (future : list ModuleRec) (m : ModuleRec) : Prop :=
  exists pre post,
    future = (pre ++ m :: post)%list /\
    Forall (fun x => mr_location x <> location) pre /\
    mr_location m = location.

(** A world with one list object, [[("index", 0)]], at reference 0. *)
Definition world_index : World (list ModuleRec) :=
  {| srv := [module_a]; trace := []; heap := {[ 0%nat := [(ByName "index", PyInt 0)] ]} |}.

(** What a metadata lookup does to the stub. *)
Definition metadata_events (object_type : TAIObjectType) (attr : AttrRef) (oid : Z)
    (location : PyVal) : list Event :=
  match location, attr with
  | PyStr loc, ById i =>
      [EvOpen RpcGetAttributeMetadata;
       EvSend (GetAttributeMetadataRequest object_type oid loc i EmptyString
                 set_default_serialize_option);
       EvRecv RpcGetAttributeMetadata;
       EvClose RpcGetAttributeMetadata]
  | PyStr loc, ByName n =>
      [EvOpen RpcGetAttributeMetadata;
       EvSend (GetAttributeMetadataRequest object_type oid loc 0 n
                 set_default_serialize_option);
       EvRecv RpcGetAttributeMetadata;
       EvClose RpcGetAttributeMetadata]
  | _, _ => [EvOpen RpcGetAttributeMetadata; EvClose RpcGetAttributeMetadata]
  end.

(** The module at "a" as [list] builds it, and a callback that returns. *)
Definition object_a : TAIObject := OfModule (Module_ async_client (PbModule module_a)).

Definition quiet : Callback := fun _ _ _ => None.

(** The value the caller gets for a value the coroutine returned: the
    same object, its [client] field set to the facade when it is a
    [TAIObject]. *)
Definition handed_over (v : Value) : Value :=
  match v with
  | VModule (Module_ _ o) => VModule (Module_ sync_client o)
  | _ => v
  end.

(** The descriptors of the small service for "location" and "index". *)
Definition location_descriptor : AttributeMetadata :=
  {| md_attr_id := 1; md_short_name := "location"; md_usage := "<none>" |}.

Definition index_descriptor : AttributeMetadata :=
  {| md_attr_id := 2; md_short_name := "index"; md_usage := "<none>" |}.

(** A coroutine that leaves every list object as it found it. *)
Definition keeps_heap {St A} (m : M St A) : Prop :=
  forall w, heap (snd (m w)) = heap w.

(** The heap after [if attrs is None: attrs = []], [attrs.append(entry)]
    and a rest that leaves the lists alone. *)
Definition heap_with (attrs : option nat) (entry : AttrRef * PyVal)
    (h : gmap nat (list (AttrRef * PyVal))) : gmap nat (list (AttrRef * PyVal)) :=
  match attrs with
  | Some r => <[r := (default [] (h !! r) ++ [entry])%list]> h
  | None => <[fresh (dom h) := [entry]]> h
  end.




(** What the caller gets out of an exchange. *)
Definition answer {A} (x : Exchange A) : Outcome A :=
  match x with
  | Fault e => Raised e
  | Reply res code msg =>
      match check_metadata code msg with
      | Some e => Raised e
      | None => Ok res
      end
  end.

(** The request of the lookup of the name [n] on the object [o]. *)
Definition by_name_request (t : TAIObjectType) (o : Z) (n : string) : Request :=
  GetAttributeMetadataRequest t o EmptyString 0 n set_default_serialize_option.

(** The request of the lookup of the id [i] on the object [o]. *)
Definition by_id_request (t : TAIObjectType) (o : Z) (i : Z) : Request :=
  GetAttributeMetadataRequest t o EmptyString i EmptyString set_default_serialize_option.

(** Every reply a thread took is the reply to the call it had put. *)
Definition own_replies {St} (stub : Stub St) (w0 : World St) (ls : list Label) : Prop :=
  forall t i k x,
    Get t i k x ∈ ls ->
    submitted ls !! k = Some i /\ replies stub w0 (submitted ls) !! k = Some x.

Section Invariants.
Context {St : Type} (stub : Stub St).

(** What holds of the queues all along: the calls put so far split into
    those handled and those still on [in_q]; the replies taken so far
    followed by those on [out_q] are the replies to the handled calls; the
    worker's world is the world after them. *)
Definition in_order (w0 : World St) (ls : list Label) (s : Sys St) : Prop :=
  exists handled pending,
    submitted ls = (handled ++ pending)%list /\
    in_q (bridge s) = map Some pending /\
    (delivered ls ++ out_q (bridge s))%list = replies stub w0 handled /\
    world (bridge s) = world_after stub w0 handled /\
    alive (bridge s) = true.
End Invariants.

(** With all labels by one thread: what that thread waits for is the last
    call put, and every reply it took is at the place of its call. *)
Definition alone {St} (t : nat) (ls : list Label) (s : Sys St) : Prop :=
  puts s = length (submitted ls) /\
  (forall t1 i k x, Get t1 i k x ∈ ls ->
     submitted ls !! k = Some i /\ delivered ls !! k = Some x) /\
  match waiting s !! t with
  | Some (i, k) =>
      k = length (delivered ls) /\ S k = length (submitted ls) /\ submitted ls !! k = Some i
  | None => length (delivered ls) = length (submitted ls)
  end.

(** Two threads: the second takes the reply to the call of the first. *)
Definition crossed : list Label :=
  [Put 1 (c_get_module "a"); Put 2 (c_get_module "b"); Work;
   Get 2 (c_get_module "b") 1 (Val (VModule (Module_ sync_client (PbModule module_a))))].

Scheme ModuleObj_mut := Induction for ModuleObj Sort Prop
  with ModuleData_mut := Induction for ModuleData Sort Prop.

(** ** The discipline of the streams *)

#[global] Instance Rpc_eq_dec : EqDecision Rpc.
Proof. solve_decision. Defined.

(** The method of the stub a request message belongs to. *)
Definition rpc_of (req : Request) : Rpc :=
  match req with
  | ListModuleRequest => RpcListModule
  | ListAttributeMetadataRequest _ _ _ => RpcListAttributeMetadata
  | GetAttributeCapabilityRequest _ _ _ => RpcGetAttributeCapability
  | GetAttributeMetadataRequest _ _ _ _ _ _ => RpcGetAttributeMetadata
  | CreateRequest _ _ _ _ => RpcCreate
  | RemoveRequest _ => RpcRemove
  | SetAttributeRequest _ _ _ => RpcSetAttribute
  | GetAttributeRequest _ _ _ => RpcGetAttribute
  | MonitorRequest _ _ _ => RpcMonitor
  | SetLogLevelRequest _ _ => RpcSetLogLevel
  end.

(** The serialization directive of a request that carries one. *)
Definition option_of (req : Request) : option SerializeOption :=
  match req with
  | GetAttributeCapabilityRequest _ _ opt
  | GetAttributeMetadataRequest _ _ _ _ _ opt
  | CreateRequest _ _ _ opt
  | SetAttributeRequest _ _ opt
  | GetAttributeRequest _ _ opt
  | MonitorRequest _ _ opt => Some opt
  | _ => None
  end.

(** A directive as [set_default_serialize_option] leaves it, up to the
    [json] flag. *)
Definition readable (req : Request) : bool :=
  match option_of req with
  | Some opt => human opt && value_only opt
  | None => true
  end.

(** Reading a log against the stack of the streams that are open (the
    innermost first): a stream that opens is pushed; a stream that closes
    must be the innermost; a message is sent or received on the innermost
    stream only, a request with a readable directive; a direct call of
    the stub may come at any time.  [None] when the log breaks this. *)
Fixpoint protocol (stack : list Rpc) (t : list Event) : option (list Rpc) :=
  match t with
  | [] => Some stack
  | EvOpen rpc :: rest => protocol (rpc :: stack) rest
  | EvClose rpc :: rest =>
      match stack with
      | top :: below => if bool_decide (top = rpc) then protocol below rest else None
      | [] => None
      end
  | EvSend req :: rest =>
      match stack with
      | top :: _ =>
          if bool_decide (top = rpc_of req) && readable req then protocol stack rest
          else None
      | [] => None
      end
  | EvRecv rpc :: rest =>
      match stack with
      | top :: _ => if bool_decide (top = rpc) then protocol stack rest else None
      | [] => None
      end
  | EvCall rpc req :: rest =>
      if bool_decide (rpc = rpc_of req) then protocol stack rest else None
  end.

(** A coroutine that, run with the streams [stack] open, only adds to the
    log, keeps to the discipline and leaves the same streams open. *)
Definition within {St A} (stack : list Rpc) (m : M St A) : Prop :=
  forall w, exists t,
    trace (snd (m w)) = (trace w ++ t)%list /\ protocol stack t = Some stack.

(** How many streams a log shows released. *)
Definition is_close (e : Event) : bool :=
  match e with EvClose _ => true | _ => false end.

Definition closes (t : list Event) : nat := length (List.filter is_close t).

(** ** Names and fixtures of the further properties *)

(** The names [set_log_level] accepts. *)
Definition level_names : list string :=
  ["debug"; "info"; "notice"; "warn"; "error"; "critical"].

Definition api_names : list string := ["module"; "netif"; "hostif"; "unspecified"].

(** A descriptor no lookup returned. *)
Definition descriptor_9 : AttributeMetadata :=
  {| md_attr_id := 9; md_short_name := "nine"; md_usage := "<notification>" |}.

(** A batch for [get_multiple] of numeric ids, each bare or with a value
    hint. *)
Definition numeric (l : list (Z * option PyVal)) : list GetArg :=
  map (fun p => match snd p with
                | None => Bare (ById (fst p))
                | Some v => Hinted (ById (fst p)) v
                end) l.

(** The request attribute [get_multiple] makes for an id. *)
Definition bare_attribute (i : Z) : Attribute :=
  {| at_attr_id := i; at_value := EmptyString |}.

(** One caller making the calls one after the other through [f]. *)
Fixpoint call_each {St} (stub : Stub St) (calls : list Command) (b : Bridge St)
    : option (list (Outcome Value) * Bridge St) :=
  match calls with
  | [] => Some ([], b)
  | i :: rest =>
      match Client.f stub i b with
      | Some (r, b1) =>
          match call_each stub rest b1 with
          | Some (rs, b2) => Some (r :: rs, b2)
          | None => None
          end
      | None => None
      end
  end.

(** A listing with two records at "a": the second has object id 6. *)
Definition module_a6 : ModuleRec :=
  {| mr_location := "a"; mr_present := true; mr_oid := 6;
     mr_netifs := [{| if_index := 0; if_oid := 60 |}; {| if_index := 1; if_oid := 61 |}];
     mr_hostifs := [] |}.

Definition world_twice : World (list ModuleRec) :=
  {| srv := [module_a; module_a6]; trace := []; heap := ∅ |}.

(** A callback that raises on every message. *)
Definition loud : Callback := fun _ _ msg => Some (PyException msg).

(** The service hands out the messages [msgs] on the notification stream
    one after the other, going from the state [s] to the state [s1]. *)
Fixpoint yields {St} (stub : Stub St) (s : St) (msgs : list string) (s1 : St) : Prop :=
  match msgs with
  | [] => s1 = s
  | msg :: rest => exists s0, MonitorRecv stub s = (s0, Ok msg) /\ yields stub s0 rest s1
  end.

(** A service that counts the notifications it has sent and sends the
    count; every attribute of it is a notification. *)
Definition ticker : Stub nat :=
  {| ListModule := fun s => (s, Ok []);
     ListAttributeMetadata := fun _ s => (s, Ok []);
     GetAttributeCapability := fun _ s => (s, Reply EmptyString 0 EmptyString);
     GetAttributeMetadata := fun _ s => (s, Reply descriptor_9 0 EmptyString);
     Create := fun _ s => (s, Reply 0 0 EmptyString);
     Remove := fun _ s => (s, Reply tt 0 EmptyString);
     SetAttribute := fun _ s => (s, Reply tt 0 EmptyString);
     GetAttribute := fun _ s => (s, Reply [] 0 EmptyString);
     Monitor := fun _ s => (s, None);
     MonitorRecv := fun s => (S s, Ok (pretty s));
     SetLogLevel := fun _ s => (s, None) |}.

Definition world_tick : World nat := {| srv := 0%nat; trace := []; heap := ∅ |}.

(** A callback that returns until it is handed the message "2". *)
Definition until_two : Callback :=
  fun _ _ msg => if String.eqb msg "2" then Some (PyException msg) else None.

(** Whether a call waits for its reply at the end of a run that began
    with ([busy]) or without one waiting. *)
Fixpoint busy_after (busy : bool) (ls : list Label) : bool :=
  match ls with
  | [] => busy
  | Put _ _ :: rest => busy_after true rest
  | Get _ _ _ _ :: rest => busy_after false rest
  | Work :: rest => busy_after busy rest
  end.

(** The calls of the run are made one at a time: no call is put while an
    earlier call, of whatever thread, still waits for its reply. *)
Fixpoint turns (busy : bool) (ls : list Label) : bool :=
  match ls with
  | [] => true
  | Put _ _ :: rest => negb busy && turns true rest
  | Get _ _ _ _ :: rest => turns false rest
  | Work :: rest => turns busy rest
  end.

Definition in_turn (ls : list Label) : Prop := turns false ls = true.

(** With the calls made one at a time: at most one thread waits, for the
    last call put, and every reply taken is at the place of its call. *)
Definition taking_turns {St} (ls : list Label) (s : Sys St) : Prop :=
  puts s = length (submitted ls) /\
  (forall t1 i k x, Get t1 i k x ∈ ls ->
     submitted ls !! k = Some i /\ delivered ls !! k = Some x) /\
  if busy_after false ls then
    exists t i k,
      waiting s = {[t := (i, k)]} /\
      k = length (delivered ls) /\ S k = length (submitted ls) /\
      submitted ls !! k = Some i
  else waiting s = ∅ /\ length (delivered ls) = length (submitted ls).

(** Two threads, one call each, the second after the first has its
    reply. *)
Definition two_in_turn : list Label :=
  [Put 1 (c_get_module "a"); Work;
   Get 1 (c_get_module "a") 0 (Val (VModule (Module_ sync_client (PbModule module_a))));
   Put 2 (c_get_module "b"); Work;
   Get 2 (c_get_module "b") 1 (ExnObj (TAIException (-1) "module b not present"))].

(** Two threads, both waiting: each takes the reply to the call of the
    other. *)
Definition swapped : list Label :=
  [Put 1 (c_get_module "a"); Put 2 (c_get_module "b"); Work;
   Get 2 (c_get_module "b") 1 (Val (VModule (Module_ sync_client (PbModule module_a))));
   Work;
   Get 1 (c_get_module "a") 0 (ExnObj (TAIException (-1) "module b not present"))].

(** The outcome, in the worker, of the call that was put as the [k]-th
    of the run: what the coroutine returns or raises, run after the calls
    put before it. *)
Definition outcome_in_worker {St} (stub : Stub St) (w0 : World St) (ls : list Label)
    (k : nat) (i : Command) : Outcome Value :=
  fst (Client.invoke stub i (world_after stub w0 (take k (submitted ls)))).

(** Every caller gets the outcome of its own call: the exception the
    coroutine raised is raised in the caller, the value it returned is
    returned to the caller. *)
Definition own_outcomes {St} (stub : Stub St) (w0 : World St) (ls : list Label) : Prop :=
  forall t i k x,
    Get t i k x ∈ ls ->
    (forall e, outcome_in_worker stub w0 ls k i = Raised e -> Client.deliver x = Raised e) /\
    (forall v, outcome_in_worker stub w0 ls k i = Ok v ->
       Client.deliver x = Ok (handed_over v)).

(** * Properties *)

(** ** Running the monad *)

Lemma bind_ok {St A B} (m : M St A) (k : A -> M St B) w a w1 :
  m w = (Ok a, w1) -> bind m k w = k a w1.
Proof. unfold bind. now intros ->. Qed.

Lemma bind_raised {St A B} (m : M St A) (k : A -> M St B) w e w1 :
  m w = (Raised e, w1) -> bind m k w = (Raised e, w1).
Proof. unfold bind. now intros ->. Qed.

(** ** [get_module] *)

Lemma scan_skips location pre rest :
  Forall (fun x => mr_location x <> location) pre ->
  AsyncClient.get_module_scan location (pre ++ rest) = AsyncClient.get_module_scan location rest.
Proof.
  induction 1 as [|x pre Hx _ IH]; [reflexivity|].
  cbn [app AsyncClient.get_module_scan].
  destruct (String.eqb_spec (mr_location x) location); [contradiction|exact IH].
Qed.

Lemma unique_location_first location future m :
  NoDup (mr_location <$> future) ->
  m ∈ future -> mr_location m = location -> first_at location future m.
Proof.
  intros Hnd Hin Hloc.
  apply list_elem_of_split in Hin as (pre & post & ->).
  exists pre, post. split; [reflexivity|]. split; [|exact Hloc].
  rewrite fmap_app, fmap_cons in Hnd.
  apply NoDup_app in Hnd as (_ & Hdisj & _).
  apply Forall_forall. intros x Hx Heq.
  apply (Hdisj (mr_location x)).
  - apply list_elem_of_fmap. now exists x.
  - rewrite Heq, <- Hloc. apply list_elem_of_here.
Qed.

Lemma get_module_runs {St} (stub : Stub St) location (w : World St) s1 future :
  ListModule stub (srv w) = (s1, Ok future) ->
  AsyncClient.get_module stub location w =
    (AsyncClient.get_module_scan location future,
     with_srv s1 (emit (EvCall RpcListModule ListModuleRequest) w)).
Proof.
  intros H. unfold AsyncClient.get_module, bind, call, lift. cbn [emit srv]. now rewrite H.
Qed.

(** C4. [get_module] fails in three ways that can be told apart, decided by
    the first record of the listing at the location: not present gives
    "module ... not present"; present with object id 0 gives "module ...
    not created yet"; no record at the location gives "no module ...
    found"; otherwise the module is returned. *)
Theorem get_module_outcomes {St} (stub : Stub St) (location : string) (w : World St)
    (s1 : St) (future : list ModuleRec) :
  ListModule stub (srv w) = (s1, Ok future) ->
  let r := fst (AsyncClient.get_module stub location w) in
  let not_present := TAIException (-1) ("module " +:+ location +:+ " not present") in
  let not_created := TAIException (-1) ("module " +:+ location +:+ " not created yet") in
  let not_found := TAIException (-1) ("no module " +:+ location +:+ " found") in
  (forall m, first_at location future m -> mr_present m = false -> r = Raised not_present) /\
  (forall m, first_at location future m -> mr_present m = true -> mr_oid m = 0 ->
     r = Raised not_created) /\
  (Forall (fun m => mr_location m <> location) future -> r = Raised not_found) /\
  (forall m, first_at location future m -> mr_present m = true -> mr_oid m <> 0 ->
     r = Ok (Module_ async_client (PbModule m))) /\
  not_present <> not_created /\ not_present <> not_found /\ not_created <> not_found.
Proof.
  intros H r not_present not_created not_found. subst r.
  rewrite (get_module_runs stub location w s1 future H). cbn [fst].
  assert (Hfirst : forall m, first_at location future m ->
            AsyncClient.get_module_scan location future =
            AsyncClient.get_module_scan location [m]).
  { intros m (pre & post & -> & Hpre & Hloc).
    rewrite (scan_skips location pre (m :: post) Hpre).
    cbn [AsyncClient.get_module_scan].
    destruct (String.eqb_spec (mr_location m) location); [|contradiction].
    cbn [negb]. now destruct (mr_present m), (mr_oid m =? 0). }
  repeat split.
  - intros m Hm Hp. rewrite (Hfirst m Hm). cbn [AsyncClient.get_module_scan].
    destruct Hm as (_ & _ & _ & _ & Hloc).
    destruct (String.eqb_spec (mr_location m) location); [|contradiction].
    now rewrite Hp.
  - intros m Hm Hp Ho. rewrite (Hfirst m Hm). cbn [AsyncClient.get_module_scan].
    destruct Hm as (_ & _ & _ & _ & Hloc).
    destruct (String.eqb_spec (mr_location m) location); [|contradiction].
    now rewrite Hp, Ho.
  - intros Hall. rewrite <- (app_nil_r future).
    now rewrite (scan_skips location future [] Hall).
  - intros m Hm Hp Ho. rewrite (Hfirst m Hm). cbn [AsyncClient.get_module_scan].
    destruct Hm as (_ & _ & _ & _ & Hloc).
    destruct (String.eqb_spec (mr_location m) location); [|contradiction].
    rewrite Hp. cbn [negb]. destruct (Z.eqb_spec (mr_oid m) 0); [contradiction|reflexivity].
  - intros [= Heq]. apply (inj (String.app location)) in Heq. discriminate.
  - intros [= Heq].
  - intros [= Heq].
Qed.

(** The three failures and the success on the small service. *)
Lemma get_module_outcomes_witness :
  fst (AsyncClient.get_module fake "b" world0) =
    Raised (TAIException (-1) "module b not present") /\
  fst (AsyncClient.get_module fake "c" world0) =
    Raised (TAIException (-1) "module c not created yet") /\
  fst (AsyncClient.get_module fake "z" world0) =
    Raised (TAIException (-1) "no module z found") /\
  fst (AsyncClient.get_module fake "a" world0) = Ok (Module_ async_client (PbModule module_a)).
Proof.
  pose proof (get_module_outcomes fake "b" world0 _ _ eq_refl) as (Hb & _).
  pose proof (get_module_outcomes fake "c" world0 _ _ eq_refl) as (_ & Hc & _).
  pose proof (get_module_outcomes fake "z" world0 _ _ eq_refl) as (_ & _ & Hz & _).
  pose proof (get_module_outcomes fake "a" world0 _ _ eq_refl) as (_ & _ & _ & Ha & _).
  split; [|split; [|split]].
  - apply (Hb module_b); [|reflexivity].
    exists [module_a], [module_c].
    split; [reflexivity|]. split; [|reflexivity]. repeat constructor. discriminate.
  - apply (Hc module_c); [|reflexivity|reflexivity].
    exists [module_a; module_b], [].
    split; [reflexivity|]. split; [|reflexivity]. repeat constructor; discriminate.
  - apply Hz. repeat constructor; discriminate.
  - apply (Ha module_a); [|reflexivity|discriminate].
    exists [], [module_b; module_c].
    split; [reflexivity|]. split; [|reflexivity]. constructor.
Defined.

(** ** [create] *)

Lemma is_location_spec key : is_location key = true <-> key = ByName "location".
Proof.
  destruct key as [i|n|m]; cbn [is_location]; try (split; discriminate).
  destruct (String.eqb_spec n "location") as [->|Hn]; split; try reflexivity; try discriminate.
  intros [= ->]. contradiction.
Qed.

Lemma find_location_none (l : list (AttrRef * PyVal)) :
  (forall key value, (key, value) ∈ l -> key <> ByName "location") ->
  find_location l = None.
Proof.
  induction l as [|[key value] l IH]; intros H; [reflexivity|].
  cbn [find_location].
  destruct (is_location key) eqn:E.
  - apply is_location_spec in E. exfalso. apply (H key value); [apply list_elem_of_here|exact E].
  - apply IH. intros k v Hin. apply (H k v). now apply list_elem_of_further.
Qed.

(** C5. [create] with [module_id] 0 on a list without a "location" entry
    raises [TAIException(0xE, "mandatory-attribute-missing")] and leaves the
    world as it was: nothing is logged, so no stream was opened and no
    metadata looked up. *)
Theorem create_mandatory_attribute_missing {St} (stub : Stub St) (object_type : ObjTypeArg)
    (attrs : nat) (w : World St) :
  (forall key value, (key, value) ∈ default [] (heap w !! attrs) -> key <> ByName "location") ->
  AsyncClient.create stub object_type attrs 0 w =
    (Raised (TAIException 14 "mandatory-attribute-missing"), w).
Proof.
  intros H. unfold AsyncClient.create.
  apply bind_raised. cbn [Z.eqb negb].
  unfold bind, AsyncClient.deref.
  now rewrite (find_location_none _ H).
Qed.

Lemma create_mandatory_attribute_missing_witness :
  AsyncClient.create fake (Tag NETIF) 0 0 world_index =
    (Raised (TAIException 14 "mandatory-attribute-missing"), world_index) /\
  trace (snd (AsyncClient.create fake (Tag NETIF) 0 0 world_index)) = [].
Proof.
  assert (H : forall key value,
             (key, value) ∈ default [] (heap world_index !! 0%nat) -> key <> ByName "location").
  { intros key value Hin. cbn in Hin. rewrite lookup_singleton_eq in Hin. cbn in Hin.
    apply list_elem_of_singleton in Hin. injection Hin as -> _. discriminate. }
  split.
  - exact (create_mandatory_attribute_missing fake (Tag NETIF) 0%nat world_index H).
  - now rewrite (create_mandatory_attribute_missing fake (Tag NETIF) 0%nat world_index H).
Defined.

(** ** [monitor] *)

Lemma send_recv_trace {St A} rpc (handler : Request -> St -> St * Exchange A) req w :
  trace (snd (send_recv rpc handler req w)) = (trace w ++ [EvSend req; EvRecv rpc])%list.
Proof.
  unfold send_recv. cbn [emit srv].
  destruct (handler req (srv w)) as [s1 [e|res code msg]]; cbn [snd emit trace with_srv].
  - now rewrite <- app_assoc.
  - destruct (check_metadata code msg); cbn [snd emit trace with_srv]; now rewrite <- app_assoc.
Qed.

Lemma open_trace {St A} rpc (body : M St A) w :
  trace (snd (open rpc body w)) =
    (trace (snd (body (emit (EvOpen rpc) w))) ++ [EvClose rpc])%list.
Proof.
  unfold open. destruct (body (emit (EvOpen rpc) w)) as [r w1]. reflexivity.
Qed.

Lemma get_attribute_metadata_trace {St} (stub : Stub St) t attr o location w :
  trace (snd (AsyncClient.get_attribute_metadata stub t attr o location w)) =
    (trace w ++ metadata_events t attr o location)%list.
Proof.
  unfold AsyncClient.get_attribute_metadata. rewrite open_trace.
  destruct location as [|z|loc]; cbn [raise snd emit trace metadata_events];
    try now rewrite <- app_assoc.
  destruct attr as [i|n|m]; cbn [raise snd emit trace];
    try rewrite send_recv_trace; cbn [emit trace]; now rewrite <- !app_assoc.
Qed.

Lemma opens_app (t1 t2 : list Event) : opens (t1 ++ t2) = (opens t1 + opens t2)%nat.
Proof. unfold opens. now rewrite List.filter_app, length_app. Qed.

Lemma opens_metadata_events t attr o location :
  opens (metadata_events t attr o location) = 1%nat.
Proof. destruct location, attr; reflexivity. Qed.

(** C1, as the code has it.  When the descriptor [monitor] resolves has a
    usage other than ["<notification>"], [monitor] raises the usage error
    after it opened the notification stream and the stream of the metadata
    lookup (two streams), without sending a request on the notification
    stream and without calling the callback; both streams are released. *)
Theorem monitor_rejects_other_usage {St} (stub : Stub St) (fuel : nat) (obj : TAIObject)
    (attr_id : AttrRef) (callback : Callback) (json : bool) (w w1 : World St)
    (m : AttributeMetadata) :
  AsyncClient.get_attribute_metadata stub (object_type obj) attr_id (oid obj) (PyStr EmptyString)
    (emit (EvOpen RpcMonitor) w) = (Ok m, w1) ->
  md_usage m <> "<notification>" ->
  let '(r, w2) := AsyncClient.monitor stub fuel obj attr_id callback json w in
  r = Raised (PyException ("the type of attribute " +:+ format attr_id +:+
                " is not notification")) /\
  trace w2 = (trace w ++ [EvOpen RpcMonitor] ++
              metadata_events (object_type obj) attr_id (oid obj) (PyStr EmptyString) ++
              [EvClose RpcMonitor])%list /\
  opens (trace w2) = (opens (trace w) + 2)%nat /\
  srv w2 = srv w1.
Proof.
  intros Hmeta Husage.
  pose proof (get_attribute_metadata_trace stub (object_type obj) attr_id (oid obj)
                (PyStr EmptyString) (emit (EvOpen RpcMonitor) w)) as Htrace.
  rewrite Hmeta in Htrace. cbn [snd emit trace] in Htrace.
  unfold AsyncClient.monitor, AsyncClient.open_while_running.
  rewrite (bind_ok _ _ _ _ _ Hmeta).
  destruct (String.eqb_spec (md_usage m) "<notification>") as [Heq|_]; [contradiction|].
  cbn [negb raise emit trace srv].
  assert (Ht : (trace w1 ++ [EvClose RpcMonitor])%list =
               (trace w ++ [EvOpen RpcMonitor] ++
                metadata_events (object_type obj) attr_id (oid obj) (PyStr EmptyString) ++
                [EvClose RpcMonitor])%list).
  { rewrite Htrace. now rewrite <- !app_assoc. }
  repeat split; try exact Ht.
  rewrite Ht, !opens_app, opens_metadata_events. cbn. lia.
Qed.

Lemma monitor_rejects_other_usage_witness :
  fst (AsyncClient.monitor fake 1 object_a (ByName "location") quiet false world0) =
    Raised (PyException "the type of attribute location is not notification") /\
  opens (trace (snd (AsyncClient.monitor fake 1 object_a (ByName "location") quiet false
                       world0))) = 2%nat.
Proof.
  assert (Husage : md_usage {| md_attr_id := 1; md_short_name := "location";
                               md_usage := "<none>" |} <> "<notification>") by discriminate.
  pose proof (monitor_rejects_other_usage fake 1 object_a (ByName "location") quiet false
                world0 _ _ eq_refl Husage) as H.
  destruct (AsyncClient.monitor fake 1 object_a (ByName "location") quiet false world0)
    as [r w2].
  destruct H as (Hr & _ & Hopens & _).
  split; [exact Hr | exact Hopens].
Defined.

(** C1 as stated fails: with a descriptor of another usage, [monitor]
    raises the usage error, and by then two streams have been opened. *)
Lemma monitor_opens_streams_before_usage_error :
  fst (AsyncClient.monitor fake 1 object_a (ByName "location") quiet false world0) =
    Raised (PyException "the type of attribute location is not notification") /\
  trace (snd (AsyncClient.monitor fake 1 object_a (ByName "location") quiet false world0)) =
    [EvOpen RpcMonitor;
     EvOpen RpcGetAttributeMetadata;
     EvSend (GetAttributeMetadataRequest MODULE 5 EmptyString 0 "location" set_default_serialize_option);
     EvRecv RpcGetAttributeMetadata;
     EvClose RpcGetAttributeMetadata;
     EvClose RpcMonitor] /\
  opens (trace (snd (AsyncClient.monitor fake 1 object_a (ByName "location") quiet false
                       world0))) <> 0%nat.
Proof. split; [reflexivity|]. split; [reflexivity|]. vm_compute. discriminate. Qed.

(** ** The facade, one caller at a time *)

(** On a facade at rest (both queues empty, the worker running) a call is
    put, handled by one pass of the worker, and its reply taken; the
    facade is at rest again. *)
Lemma f_at_rest {St} (stub : Stub St) (i : Command) (w : World St) :
  Client.f stub i (Client.init w) =
    Some (Client.deliver (Client.rebind (Client.caught (fst (Client.invoke stub i w)))),
          Client.init (snd (Client.invoke stub i w))).
Proof.
  unfold Client.f, Client.init, Client.in_q_put.
  cbn [in_q out_q alive world app length Client.out_q_get Client.loop_body].
  destruct (Client.invoke stub i w) as [r w1].
  cbn [in_q out_q alive world app fst snd]. reflexivity.
Qed.

Lemma blocking_call_runs {St} (stub : Stub St) (i : Command) (w : World St) :
  Client.blocking_call stub i w =
    (Client.deliver (Client.rebind (Client.caught (fst (Client.invoke stub i w)))),
     snd (Client.invoke stub i w)).
Proof. unfold Client.blocking_call. now rewrite f_at_rest. Qed.

(** The rebinding the worker does: a [Module] that comes back through the
    facade is owned by the facade. *)
Lemma facade_module_owner {St} (stub : Stub St) (i : Command) (w : World St) m b :
  Client.f stub i (Client.init w) = Some (Ok (VModule m), b) -> client_of m = sync_client.
Proof.
  rewrite f_at_rest. destruct (Client.invoke stub i w) as [[v|e] w1]; cbn; [|discriminate].
  destruct v as [| | | | |[c o]| | |]; cbn; intros [= <- _]; try discriminate. reflexivity.
Qed.

(** C2 fails on [list]: the dictionary is no [TAIObject], so the modules
    in it keep the worker's [AsyncClient] as their [client]. *)
Lemma facade_list_keeps_async_owner :
  exists d b,
    Client.f fake c_list (Client.init world0) = Some (Ok (VDict d), b) /\
    d !! "a" = Some (Module_ async_client (PbModule module_a)) /\
    owners (VDict d) = [async_client; async_client; async_client].
Proof.
  eexists _, _. split; [rewrite f_at_rest; reflexivity|].
  split; [reflexivity|]. vm_compute. reflexivity.
Qed.

(** ** [get_multiple] *)

(** With metadata requested, every entry of the result carries the one
    descriptor the variable [meta] holds when the first loop ends. *)
Lemma collect_one_descriptor (meta : option AttributeMetadata) (res : list Attribute)
    (items : list GetItem) :
  AsyncClient.collect true meta res = Ok items ->
  items = [] \/
  exists m, meta = Some m /\ items = map (fun a => WithMeta (at_value a) m) res.
Proof.
  destruct meta as [m|].
  - intros H. right. exists m. split; [reflexivity|].
    revert items H. induction res as [|a res IH]; intros items H.
    + now injection H as <-.
    + cbn [AsyncClient.collect] in H.
      destruct (AsyncClient.collect true (Some m) res) as [more|e]; [|discriminate].
      injection H as <-. cbn [map]. now rewrite (IH more eq_refl).
  - destruct res as [|a res]; cbn [AsyncClient.collect]; [|discriminate].
    intros [= <-]. now left.
Qed.

(** C3 fails on a batch of two: the value of attribute 1 comes back with
    the descriptor of attribute 2, the last one resolved; alone, it comes
    back with its own. *)
Lemma get_multiple_pairs_last_descriptor :
  fst (AsyncClient.get_multiple fake MODULE 5 [Bare (ById 1); Bare (ById 2)] true false
         world0) =
    Ok [WithMeta "a" index_descriptor; WithMeta "2" index_descriptor] /\
  fst (AsyncClient.get fake MODULE 5 (ById 1) true PyNone false world0) =
    Ok (WithMeta "a" location_descriptor).
Proof. split; reflexivity. Qed.

(** ** The lists behind [attrs] *)

Create HintDb heap.

Lemma keeps_ret {St A} (a : A) : keeps_heap (@ret St A a).
Proof. now intros w. Qed.

Lemma keeps_raise {St A} (e : Exn) : keeps_heap (@raise St A e).
Proof. now intros w. Qed.

Lemma keeps_lift {St A} (r : Outcome A) : keeps_heap (@lift St A r).
Proof. now intros w. Qed.

Lemma keeps_bind {St A B} (m : M St A) (k : A -> M St B) :
  keeps_heap m -> (forall a, keeps_heap (k a)) -> keeps_heap (bind m k).
Proof.
  intros Hm Hk w. unfold bind. specialize (Hm w).
  destruct (m w) as [[a|e] w1]; cbn [snd] in *; [|exact Hm].
  now rewrite Hk.
Qed.

Lemma keeps_open {St A} rpc (body : M St A) : keeps_heap body -> keeps_heap (open rpc body).
Proof.
  intros Hb w. unfold open. specialize (Hb (emit (EvOpen rpc) w)).
  destruct (body (emit (EvOpen rpc) w)) as [r w1]. exact Hb.
Qed.

Lemma keeps_send_recv {St A} rpc (handler : Request -> St -> St * Exchange A) req :
  keeps_heap (send_recv rpc handler req).
Proof.
  intros w. unfold send_recv. cbn [emit srv].
  destruct (handler req (srv w)) as [s1 [e|res code msg]]; [reflexivity|].
  now destruct (check_metadata code msg).
Qed.

Lemma keeps_call {St A} rpc (handler : St -> St * Outcome A) req :
  keeps_heap (call rpc handler req).
Proof. intros w. unfold call. cbn [emit srv]. now destruct (handler (srv w)). Qed.

Lemma keeps_deref {St} r : keeps_heap (@AsyncClient.deref St r).
Proof. now intros w. Qed.

#[local] Hint Resolve keeps_ret keeps_raise keeps_lift keeps_open keeps_send_recv
  keeps_call keeps_deref : heap.

Ltac keeps :=
  repeat first
    [ apply keeps_open
    | apply keeps_bind; [|intros ?]
    | solve [auto with heap]
    | match goal with
      | |- keeps_heap (match ?x with _ => _ end) => destruct x
      | |- keeps_heap (if ?x then _ else _) => destruct x
      end ].

Lemma keeps_get_attribute_metadata {St} (stub : Stub St) t attr o location :
  keeps_heap (AsyncClient.get_attribute_metadata stub t attr o location).
Proof. unfold AsyncClient.get_attribute_metadata. apply keeps_open. keeps. Qed.
#[local] Hint Resolve keeps_get_attribute_metadata : heap.

Lemma keeps_get_attributes {St} (stub : Stub St) t o with_metadata attributes meta a req :
  keeps_heap (AsyncClient.get_attributes stub t o with_metadata attributes meta a req).
Proof.
  revert meta a req. induction attributes as [|arg rest IH]; intros meta a req;
    cbn [AsyncClient.get_attributes]; [keeps|].
  destruct arg as [r|r v]; keeps.
Qed.
#[local] Hint Resolve keeps_get_attributes : heap.

Lemma keeps_get {St} (stub : Stub St) t o attr with_metadata value j :
  keeps_heap (AsyncClient.get stub t o attr with_metadata value j).
Proof. unfold AsyncClient.get, AsyncClient.get_multiple. keeps. Qed.
#[local] Hint Resolve keeps_get : heap.

Lemma keeps_create_attrs {St} (stub : Stub St) t location attrs :
  keeps_heap (AsyncClient.create_attrs stub t location attrs).
Proof.
  induction attrs as [|[attr_id value] rest IH]; cbn [AsyncClient.create_attrs]; keeps.
Qed.
#[local] Hint Resolve keeps_create_attrs : heap.

Lemma keeps_create {St} (stub : Stub St) t attrs module_id :
  keeps_heap (AsyncClient.create stub t attrs module_id).
Proof. unfold AsyncClient.create. keeps. Qed.

Lemma keeps_get_module {St} (stub : Stub St) location :
  keeps_heap (AsyncClient.get_module stub location).
Proof. unfold AsyncClient.get_module. keeps. Qed.

Lemma keeps_list {St} (stub : Stub St) : keeps_heap (AsyncClient.list stub).
Proof. unfold AsyncClient.list. keeps. Qed.
#[local] Hint Resolve keeps_create keeps_get_module keeps_list : heap.

Lemma keeps_blocking_call {St} (stub : Stub St) (i : Command) :
  keeps_heap (Client.invoke stub i) -> keeps_heap (Client.blocking_call stub i).
Proof. intros H w. rewrite blocking_call_runs. apply H. Qed.

Lemma keeps_client_create {St} (stub : Stub St) client t attrs module_id :
  keeps_heap (client_create stub client t attrs module_id).
Proof.
  destruct client; cbn [client_create]; [keeps|].
  apply keeps_bind; [|intros ?; keeps].
  apply keeps_blocking_call. cbn [Client.invoke]. keeps.
Qed.

Lemma keeps_client_list {St} (stub : Stub St) client : keeps_heap (client_list stub client).
Proof.
  destruct client; cbn [client_list]; [keeps|].
  apply keeps_bind; [|intros ?; keeps].
  apply keeps_blocking_call. cbn [Client.invoke]. keeps.
Qed.
#[local] Hint Resolve keeps_client_create keeps_client_list : heap.

Lemma keeps_refresh {St} (stub : Stub St) self : keeps_heap (refresh stub self).
Proof. unfold refresh. keeps. Qed.
#[local] Hint Resolve keeps_refresh : heap.

Lemma heap_after_append {St A} (attrs : option nat) (entry : AttrRef * PyVal)
    (rest : nat -> M St A) (w : World St) :
  (forall a, keeps_heap (rest a)) ->
  heap (snd (bind (AsyncClient.or_new_list attrs)
               (fun a => bind (AsyncClient.append a entry) (fun _ => rest a)) w)) =
    heap_with attrs entry (heap w).
Proof.
  intros Hrest. unfold bind, heap_with.
  destruct attrs as [r|]; cbn [AsyncClient.or_new_list ret AsyncClient.alloc AsyncClient.append].
  - now rewrite Hrest.
  - rewrite Hrest. cbn [with_heap heap].
    rewrite lookup_insert_eq. cbn [default app]. apply insert_insert_eq.
Qed.

Lemma fresh_list_is_new (h : gmap nat (list (AttrRef * PyVal))) : h !! fresh (dom h) = None.
Proof. apply not_elem_of_dom. apply is_fresh. Qed.

(** C10. [create_module], [create_netif] and [create_hostif] append their
    entry to the list object the caller passed, whatever the outcome of the
    call, and touch no other list; only for [None] a new list is made, and
    no list of the caller changes.  A list passed twice holds two entries
    more. *)
Theorem create_appends_to_the_callers_list {St} (stub : Stub St) (location : string)
    (self : ModuleObj) (index : Z) (r : nat) (w : World St) :
  let old := default [] (heap w !! r) in
  let loc := (ByName "location", PyStr location) in
  let idx := (ByName "index", PyInt index) in
  heap (snd (AsyncClient.create_module stub location (Some r) w)) =
    <[r := (old ++ [loc])%list]> (heap w) /\
  heap (snd (create_netif stub self index (Some r) w)) = <[r := (old ++ [idx])%list]> (heap w) /\
  heap (snd (create_hostif stub self index (Some r) w)) = <[r := (old ++ [idx])%list]> (heap w) /\
  heap (snd (AsyncClient.create_module stub location None w)) =
    <[fresh (dom (heap w)) := [loc]]> (heap w) /\
  heap (snd (create_netif stub self index None w)) = <[fresh (dom (heap w)) := [idx]]> (heap w) /\
  heap (snd (create_hostif stub self index None w)) = <[fresh (dom (heap w)) := [idx]]> (heap w) /\
  heap w !! fresh (dom (heap w)) = None /\
  heap (snd (AsyncClient.create_module stub location (Some r)
               (snd (AsyncClient.create_module stub location (Some r) w)))) !! r =
    Some (old ++ [loc; loc])%list /\
  heap (snd (create_netif stub self index (Some r)
               (snd (create_netif stub self index (Some r) w)))) !! r =
    Some (old ++ [idx; idx])%list.
Proof.
  intros old loc idx.
  assert (Hm : forall attrs w0,
            heap (snd (AsyncClient.create_module stub location attrs w0)) =
            heap_with attrs loc (heap w0)).
  { intros attrs w0. unfold AsyncClient.create_module. apply heap_after_append.
    intros a. keeps. }
  assert (Hn : forall attrs w0,
            heap (snd (create_netif stub self index attrs w0)) = heap_with attrs idx (heap w0)).
  { intros attrs w0. unfold create_netif. apply heap_after_append. intros a. keeps. }
  assert (Hh : forall attrs w0,
            heap (snd (create_hostif stub self index attrs w0)) = heap_with attrs idx (heap w0)).
  { intros attrs w0. unfold create_hostif. apply heap_after_append. intros a. keeps. }
  repeat split; try apply Hm; try apply Hn; try apply Hh.
  - apply fresh_list_is_new.
  - rewrite !Hm. cbn [heap_with]. rewrite !lookup_insert_eq. cbn [default id].
    subst old. now rewrite <- app_assoc.
  - rewrite !Hn. cbn [heap_with]. rewrite !lookup_insert_eq. cbn [default id].
    subst old. now rewrite <- app_assoc.
Qed.

(** ** [create_netif], [create_hostif] *)

(** Through however many [Module] objects [obj] reads, the interfaces are
    those of the record underneath. *)
Lemma netifs_records (m : ModuleObj) : map if_record (netifs m) = mr_netifs (record m).
Proof.
  induction m using ModuleObj_mut
    with (P0 := fun o => map if_data_record (obj_netifs o) = mr_netifs (data_record o)).
  - cbn [netifs record]. rewrite map_map. cbn [if_record NetIf]. exact IHm.
  - cbn [obj_netifs data_record]. rewrite map_map. cbn [if_data_record]. apply map_id.
  - cbn [obj_netifs data_record]. rewrite map_map. cbn [if_data_record]. exact IHm.
Qed.

Lemma hostifs_records (m : ModuleObj) : map if_record (hostifs m) = mr_hostifs (record m).
Proof.
  induction m using ModuleObj_mut
    with (P0 := fun o => map if_data_record (obj_hostifs o) = mr_hostifs (data_record o)).
  - cbn [hostifs record]. rewrite map_map. cbn [if_record HostIf]. exact IHm.
  - cbn [obj_hostifs data_record]. rewrite map_map. cbn [if_data_record]. apply map_id.
  - cbn [obj_hostifs data_record]. rewrite map_map. cbn [if_data_record]. exact IHm.
Qed.

Lemma py_index_map {A B} (g : A -> B) (l : list A) (i : Z) :
  py_index (map g l) i = g <$> py_index l i.
Proof.
  unfold py_index. rewrite length_map.
  destruct (0 <=? i); [apply list_lookup_fmap|].
  destruct (0 <=? Z.of_nat (length l) + i); [apply list_lookup_fmap|reflexivity].
Qed.









(** ** By name and by id *)

Lemma send_recv_runs {St A} rpc (handler : Request -> St -> St * Exchange A) req (w : World St) :
  send_recv rpc handler req w =
    (answer (snd (handler req (srv w))),
     {| srv := fst (handler req (srv w));
        trace := (trace w ++ [EvSend req; EvRecv rpc])%list;
        heap := heap w |}).
Proof.
  unfold send_recv, emit, with_srv. cbn [srv trace heap].
  destruct (handler req (srv w)) as [s1 [e|res code msg]]; cbn [fst snd answer];
    rewrite <- ?app_assoc; [reflexivity|].
  destruct (check_metadata code msg); reflexivity.
Qed.

(** Without metadata the second loop of [get_multiple] returns the
    values as they came. *)
Lemma collect_plain (meta : option AttributeMetadata) (res : list Attribute) :
  AsyncClient.collect false meta res = Ok (map (fun a => Plain (at_value a)) res).
Proof.
  induction res as [|a res IH]; [reflexivity|].
  cbn [AsyncClient.collect map]. now rewrite IH.
Qed.

Lemma lookup_by_name_runs {St} (stub : Stub St) t o n (w : World St) m msg :
  GetAttributeMetadata stub (by_name_request t o n) (srv w) = (srv w, Reply m 0 msg) ->
  AsyncClient.get_attribute_metadata stub t (ByName n) o (PyStr EmptyString) w =
    (Ok m, {| srv := srv w;
              trace := (trace w ++ metadata_events t (ByName n) o (PyStr EmptyString))%list;
              heap := heap w |}).
Proof.
  intros H. unfold AsyncClient.get_attribute_metadata, open.
  rewrite send_recv_runs. cbn [emit srv trace heap]. fold (by_name_request t o n).
  rewrite H. cbn [fst snd answer check_metadata Z.eqb negb metadata_events].
  unfold emit. cbn [srv trace heap]. now rewrite <- !app_assoc.
Qed.

Lemma lookup_by_id_runs {St} (stub : Stub St) t o i (w : World St) m msg :
  GetAttributeMetadata stub (by_id_request t o i) (srv w) = (srv w, Reply m 0 msg) ->
  AsyncClient.get_attribute_metadata stub t (ById i) o (PyStr EmptyString) w =
    (Ok m, {| srv := srv w;
              trace := (trace w ++ metadata_events t (ById i) o (PyStr EmptyString))%list;
              heap := heap w |}).
Proof.
  intros H. unfold AsyncClient.get_attribute_metadata, open.
  rewrite send_recv_runs. cbn [emit srv trace heap]. fold (by_id_request t o i).
  rewrite H. cbn [fst snd answer check_metadata Z.eqb negb metadata_events].
  unfold emit. cbn [srv trace heap]. now rewrite <- !app_assoc.
Qed.

(** C8. Let the lookup of the name [n] on the object answer the descriptor
    [m] with status 0 and leave the service as it is.  Then [set] and [get]
    by the name give the outcome and leave the service in the state that
    they do by the id of [m]; [get] with metadata too, when the lookup of
    the id answers [m] as well.  By id and without metadata, [set] and
    [get] open the one stream of their own request: no metadata lookup. *)
Theorem by_name_as_by_id {St} (stub : Stub St) (t : TAIObjectType) (o : Z) (n : string)
    (m : AttributeMetadata) (msg : string) (value : PyVal) (json : bool) (w : World St) :
  GetAttributeMetadata stub (by_name_request t o n) (srv w) = (srv w, Reply m 0 msg) ->
  let i := md_attr_id m in
  let same {A} (x y : Outcome A * World St) :=
    fst x = fst y /\ srv (snd x) = srv (snd y) /\ heap (snd x) = heap (snd y) in
  same (AsyncClient.set stub t o (ByName n) value w)
       (AsyncClient.set stub t o (ById i) value w) /\
  same (AsyncClient.get stub t o (ByName n) false value json w)
       (AsyncClient.get stub t o (ById i) false value json w) /\
  (forall msg1,
     GetAttributeMetadata stub (by_id_request t o i) (srv w) = (srv w, Reply m 0 msg1) ->
     same (AsyncClient.get stub t o (ByName n) true value json w)
          (AsyncClient.get stub t o (ById i) true value json w)) /\
  trace (snd (AsyncClient.set stub t o (ById i) value w)) =
    (trace w ++ [EvOpen RpcSetAttribute;
                 EvSend (SetAttributeRequest o [{| at_attr_id := i; at_value := str value |}]
                           set_default_serialize_option);
                 EvRecv RpcSetAttribute;
                 EvClose RpcSetAttribute])%list /\
  trace (snd (AsyncClient.get stub t o (ById i) false value json w)) =
    (trace w ++ [EvOpen RpcGetAttribute;
                 EvSend (GetAttributeRequest o [{| at_attr_id := i; at_value := EmptyString |}]
                           (with_json set_default_serialize_option json));
                 EvRecv RpcGetAttribute;
                 EvClose RpcGetAttribute])%list.
Proof.
  intros Hname i same. subst same. cbn beta.
  split; [|split; [|split; [|split]]].
  - unfold AsyncClient.set, AsyncClient.set_multiple, open.
    cbn [AsyncClient.set_attributes]. unfold bind, ret.
    rewrite (lookup_by_name_runs stub t o n (emit (EvOpen RpcSetAttribute) w) m msg Hname).
    rewrite !send_recv_runs. cbn [emit srv trace heap fst snd].
    fold i. now repeat split.
  - unfold AsyncClient.get, AsyncClient.get_multiple, open.
    cbn [AsyncClient.get_attributes]. unfold bind, ret, lift.
    rewrite (lookup_by_name_runs stub t o n (emit (EvOpen RpcGetAttribute) w) m msg Hname).
    rewrite !send_recv_runs. cbn [emit srv trace heap fst snd].
    fold i.
    destruct (answer (GetAttribute stub _ (srv w)).2) as [res|e];
      rewrite ?collect_plain; [destruct res|]; cbn [map fst snd srv heap raise emit];
      now repeat split.
  - intros msg1 Hid.
    unfold AsyncClient.get, AsyncClient.get_multiple, open.
    cbn [AsyncClient.get_attributes]. unfold bind, ret, lift.
    rewrite (lookup_by_name_runs stub t o n (emit (EvOpen RpcGetAttribute) w) m msg Hname).
    rewrite (lookup_by_id_runs stub t o i (emit (EvOpen RpcGetAttribute) w) m msg1 Hid).
    rewrite !send_recv_runs. cbn [emit srv trace heap fst snd].
    fold i.
    destruct (answer (GetAttribute stub _ (srv w)).2) as [res|e];
      [destruct (AsyncClient.collect true (Some m) res) as [[|x l]|e]|];
      cbn [fst snd srv heap raise emit]; now repeat split.
  - unfold AsyncClient.set, AsyncClient.set_multiple, open, bind, ret.
    cbn [AsyncClient.set_attributes]. unfold bind, ret.
    rewrite send_recv_runs. cbn [emit srv trace heap fst snd].
    now rewrite <- !app_assoc.
  - unfold AsyncClient.get, AsyncClient.get_multiple, open, bind, ret, lift.
    cbn [AsyncClient.get_attributes]. unfold bind, ret.
    rewrite send_recv_runs. cbn [emit srv trace heap fst snd].
    match goal with |- context [answer ?x] => destruct (answer x) as [res|e] end;
      rewrite ?collect_plain; [destruct res|];
      cbn [map snd emit trace raise]; now rewrite <- !app_assoc.
Qed.

Lemma by_name_as_by_id_witness :
  fst (AsyncClient.get fake MODULE 5 (ByName "location") false PyNone false world0) =
    fst (AsyncClient.get fake MODULE 5 (ById 1) false PyNone false world0) /\
  fst (AsyncClient.set fake MODULE 5 (ByName "location") (PyStr "x") world0) =
    fst (AsyncClient.set fake MODULE 5 (ById 1) (PyStr "x") world0) /\
  trace (snd (AsyncClient.get fake MODULE 5 (ById 1) false PyNone false world0)) =
    [EvOpen RpcGetAttribute;
     EvSend (GetAttributeRequest 5 [{| at_attr_id := 1; at_value := EmptyString |}]
               set_default_serialize_option);
     EvRecv RpcGetAttribute;
     EvClose RpcGetAttribute].
Proof.
  pose proof (by_name_as_by_id fake MODULE 5 "location" location_descriptor EmptyString
                PyNone false world0 eq_refl) as (_ & (Hget & _) & _ & _ & Htrace).
  pose proof (by_name_as_by_id fake MODULE 5 "location" location_descriptor EmptyString
                (PyStr "x") false world0 eq_refl) as ((Hset & _) & _).
  split; [exact Hget|]. split; [exact Hset|exact Htrace].
Defined.

(** ** Several callers *)

Lemma submitted_app (l1 l2 : list Label) :
  submitted (l1 ++ l2) = (submitted l1 ++ submitted l2)%list.
Proof.
  induction l1 as [|[t i| |t i k x] l1 IH]; cbn [app submitted]; now rewrite ?IH.
Qed.

Lemma delivered_app (l1 l2 : list Label) :
  delivered (l1 ++ l2) = (delivered l1 ++ delivered l2)%list.
Proof.
  induction l1 as [|[t i| |t i k x] l1 IH]; cbn [app delivered]; now rewrite ?IH.
Qed.

Section Order.
Context {St : Type} (stub : Stub St).

Lemma replies_app (w : World St) (a b : list Command) :
  replies stub w (a ++ b) = (replies stub w a ++ replies stub (world_after stub w a) b)%list.
Proof.
  revert w. induction a as [|i a IH]; intros w; [reflexivity|].
  cbn [app replies world_after].
  destruct (Client.invoke stub i w) as [r w1]. cbn [snd app]. now rewrite IH.
Qed.

Lemma world_after_app (w : World St) (a b : list Command) :
  world_after stub w (a ++ b) = world_after stub (world_after stub w a) b.
Proof.
  revert w. induction a as [|i a IH]; intros w; [reflexivity|].
  cbn [app world_after]. apply IH.
Qed.

Lemma replies_length (w : World St) (calls : list Command) :
  length (replies stub w calls) = length calls.
Proof.
  revert w. induction calls as [|i calls IH]; intros w; [reflexivity|].
  cbn [replies]. destruct (Client.invoke stub i w) as [r w1]. cbn [length]. now rewrite IH.
Qed.

Lemma exec_in_order (w0 : World St) (ls : list Label) (s : Sys St) :
  exec stub (start w0) ls s -> in_order stub w0 ls s.
Proof.
  remember (start w0) as s0 eqn:Hs0.
  induction 1 as [s|s ls s1 l s2 Hexec IH Hstep].
  - subst s. exists [], []. now repeat split.
  - specialize (IH Hs0) as (handled & pending & Hsub & Hin & Hout & Hw & Halive).
    inversion Hstep as [s' t i Hwait|s' b1 Hbody|s' t i k x rest Hwait Hq]; subst.
    + exists handled, (pending ++ [i])%list.
      rewrite submitted_app, delivered_app. cbn [submitted delivered bridge Client.in_q_put
        in_q out_q world alive].
      rewrite Hsub, Hin, map_app, app_nil_r, <- app_assoc. now repeat split.
    + unfold Client.loop_body in Hbody. rewrite Halive, Hin in Hbody.
      destruct pending as [|i pending]; [discriminate|]. cbn [map] in Hbody.
      destruct (Client.invoke stub i (world (bridge s1))) as [r w1] eqn:Hinv.
      injection Hbody as <-.
      exists (handled ++ [i])%list, pending.
      rewrite submitted_app, delivered_app. cbn [submitted delivered bridge in_q out_q
        world alive].
      rewrite !app_nil_r, Hsub, replies_app, world_after_app, <- Hout, <- Hw.
      cbn [replies world_after]. rewrite Hinv. cbn [snd].
      rewrite <- !app_assoc. now repeat split.
    + exists handled, pending.
      rewrite submitted_app, delivered_app. cbn [submitted delivered bridge in_q out_q
        world alive].
      rewrite app_nil_r, <- app_assoc. cbn [app]. rewrite <- Hq. now repeat split.
Qed.

Lemma exec_alone (w0 : World St) (t : nat) (ls : list Label) (s : Sys St) :
  exec stub (start w0) ls s -> Forall (by_thread t) ls -> alone t ls s.
Proof.
  remember (start w0) as s0 eqn:Hs0.
  induction 1 as [s|s ls s1 l s2 Hexec IH Hstep]; intros Hall.
  - subst s. split; [reflexivity|]. split; [|reflexivity].
    intros t1 i k x Hin. now apply elem_of_nil in Hin.
  - apply Forall_app in Hall as [Hall Hl]. rewrite Forall_singleton in Hl.
    specialize (IH Hs0 Hall) as (Hputs & Hgets & Hwait).
    assert (Hold : forall t1 i k x, Get t1 i k x ∈ ls ->
              forall a b, (submitted ls ++ a)%list !! k = Some i /\
                          (delivered ls ++ b)%list !! k = Some x).
    { intros t1 i k x Hin a b. destruct (Hgets t1 i k x Hin) as [H1 H2].
      split; apply lookup_app_l_Some; assumption. }
    inversion Hstep as [s' t1 i Hw|s' b1 Hbody|s' t1 i k x rest Hw Hq]; subst;
      cbn [by_thread] in Hl; subst; unfold alone;
      rewrite submitted_app, delivered_app; cbn [submitted delivered waiting puts].
    + rewrite Hw in Hwait. rewrite app_nil_r, length_app. cbn [length].
      split; [lia|]. split.
      * intros t1 i1 k x Hin. apply elem_of_app in Hin as [Hin|Hin].
        -- destruct (Hold t1 i1 k x Hin [i] []) as [H1 H2].
           rewrite app_nil_r in H2. now split.
        -- apply list_elem_of_singleton in Hin. discriminate.
      * rewrite lookup_insert_eq. rewrite Hputs.
        split; [lia|]. split; [lia|].
        rewrite lookup_app_r by lia. now rewrite Nat.sub_diag.
    + rewrite !app_nil_r. split; [exact Hputs|]. split; [|exact Hwait].
      intros t1 i k x Hin. apply elem_of_app in Hin as [Hin|Hin]; [now apply (Hgets t1 i k x)|].
      apply list_elem_of_singleton in Hin. discriminate.
    + rewrite Hw in Hwait. destruct Hwait as (Hk & HS & Hi).
      rewrite app_nil_r, length_app. cbn [length].
      split; [exact Hputs|]. split.
      * intros t1 i1 k1 x1 Hin. apply elem_of_app in Hin as [Hin|Hin].
        -- destruct (Hold t1 i1 k1 x1 Hin [] [x]) as [H1 H2].
           rewrite app_nil_r in H1. now split.
        -- apply list_elem_of_singleton in Hin. injection Hin as -> -> -> ->.
           split; [exact Hi|]. rewrite lookup_app_r by lia.
           rewrite Hk. now rewrite Nat.sub_diag.
      * rewrite lookup_delete_eq. lia.
Qed.

Lemma replies_lookup (w : World St) (calls : list Command) (k : nat) i x :
  calls !! k = Some i -> replies stub w calls !! k = Some x ->
  x = Client.rebind (Client.caught
        (fst (Client.invoke stub i (world_after stub w (take k calls))))).
Proof.
  revert w k. induction calls as [|c calls IH]; intros w k Hi Hx; [discriminate|].
  cbn [replies] in Hx. destruct (Client.invoke stub c w) as [r w1] eqn:Hinv.
  destruct k as [|k]; cbn in Hi, Hx.
  - injection Hi as ->. injection Hx as <-. cbn [take world_after]. now rewrite Hinv.
  - cbn [take world_after]. rewrite Hinv. cbn [snd]. now apply IH.
Qed.

Lemma turns_app (busy : bool) (l1 l2 : list Label) :
  turns busy (l1 ++ l2) = turns busy l1 && turns (busy_after busy l1) l2.
Proof.
  revert busy. induction l1 as [|[t i| |t i k x] l1 IH]; intros busy;
    cbn [app turns busy_after]; rewrite ?IH; [reflexivity|..|reflexivity|reflexivity].
  now rewrite andb_assoc.
Qed.

Lemma busy_after_app (busy : bool) (l1 l2 : list Label) :
  busy_after busy (l1 ++ l2) = busy_after (busy_after busy l1) l2.
Proof.
  revert busy. induction l1 as [|[t i| |t i k x] l1 IH]; intros busy;
    cbn [app busy_after]; now rewrite ?IH.
Qed.

Lemma exec_taking_turns (w0 : World St) (ls : list Label) (s : Sys St) :
  exec stub (start w0) ls s -> in_turn ls -> taking_turns ls s.
Proof.
  unfold in_turn. remember (start w0) as s0 eqn:Hs0.
  induction 1 as [s|s ls s1 l s2 Hexec IH Hstep]; intros Hturn.
  - subst s. split; [reflexivity|]. split; [|now split].
    intros t1 i k x Hin. now apply elem_of_nil in Hin.
  - rewrite turns_app in Hturn. apply andb_true_iff in Hturn as [Hturn Hl].
    specialize (IH Hs0 Hturn) as (Hputs & Hgets & Hwait).
    assert (Hold : forall t1 i k x, Get t1 i k x ∈ ls ->
              forall a b, (submitted ls ++ a)%list !! k = Some i /\
                          (delivered ls ++ b)%list !! k = Some x).
    { intros t1 i k x Hin a b. destruct (Hgets t1 i k x Hin) as [H1 H2].
      split; apply lookup_app_l_Some; assumption. }
    inversion Hstep as [s' t1 i Hw|s' b1 Hbody|s' t1 i k x rest Hw Hq]; subst;
      unfold taking_turns; rewrite submitted_app, delivered_app, busy_after_app;
      cbn [submitted delivered waiting puts busy_after turns] in *.
    + destruct (busy_after false ls); [discriminate|]. destruct Hwait as [Hempty Hlen].
      rewrite app_nil_r, length_app. cbn [length].
      split; [lia|]. split.
      * intros t2 i1 k x Hin. apply elem_of_app in Hin as [Hin|Hin].
        -- destruct (Hold t2 i1 k x Hin [i] []) as [H1 H2].
           rewrite app_nil_r in H2. now split.
        -- apply list_elem_of_singleton in Hin. discriminate.
      * exists t1, i, (puts s1). rewrite Hempty, insert_empty, Hputs.
        split; [reflexivity|]. split; [lia|]. split; [lia|].
        rewrite lookup_app_r by lia. now rewrite Nat.sub_diag.
    + rewrite !app_nil_r. split; [exact Hputs|]. split; [|exact Hwait].
      intros t1 i k x Hin. apply elem_of_app in Hin as [Hin|Hin];
        [now apply (Hgets t1 i k x)|].
      apply list_elem_of_singleton in Hin. discriminate.
    + assert (Hk : k = length (delivered ls) /\ S k = length (submitted ls) /\
                   submitted ls !! k = Some i /\ delete t1 (waiting s1) = ∅).
      { destruct (busy_after false ls).
        - destruct Hwait as (t0 & i0 & k0 & Hone & Hk0 & HS & Hi).
          rewrite Hone in Hw. apply lookup_singleton_Some in Hw as [<- [= <- <-]].
          rewrite Hone, delete_singleton_eq. now repeat split.
        - destruct Hwait as [Hempty _]. now rewrite Hempty, lookup_empty in Hw. }
      destruct Hk as (Hk & HS & Hi & Hdel).
      rewrite app_nil_r, length_app. cbn [length].
      split; [exact Hputs|]. split.
      * intros t2 i1 k1 x1 Hin. apply elem_of_app in Hin as [Hin|Hin].
        -- destruct (Hold t2 i1 k1 x1 Hin [] [x]) as [H1 H2].
           rewrite app_nil_r in H1. now split.
        -- apply list_elem_of_singleton in Hin. injection Hin as -> -> -> ->.
           split; [exact Hi|]. rewrite lookup_app_r by lia.
           rewrite Hk. now rewrite Nat.sub_diag.
      * split; [exact Hdel|lia].
Qed.
End Order.

(** C6, as the code has it.  A call made while no other call waits for
    its reply gets the outcome of its own coroutine: when the coroutine of
    the worker's [AsyncClient] raises [e], the caller of the facade gets [e]
    raised, the same exception with the same fields; when it returns [v],
    the caller gets [v] (a [TAIObject] with its [client] field set to the
    facade).  This holds of a call on a facade at rest, which is at rest
    again afterwards, and of every call of every run in which the callers,
    one thread or several, take turns. *)
Theorem facade_delivers_the_outcome {St} (stub : Stub St) (i : Command) (w : World St) :
  (forall e w1, Client.invoke stub i w = (Raised e, w1) ->
     Client.f stub i (Client.init w) = Some (Raised e, Client.init w1)) /\
  (forall v w1, Client.invoke stub i w = (Ok v, w1) ->
     Client.f stub i (Client.init w) = Some (Ok (handed_over v), Client.init w1)) /\
  (forall v, (forall m, v <> VModule m) -> handed_over v = v) /\
  (forall m, handed_over (VModule m) = VModule (Module_ sync_client (obj_of m))) /\
  (forall ls s, exec stub (start w) ls s -> in_turn ls -> own_outcomes stub w ls).
Proof.
  split; [|split; [|split; [|split]]].
  - intros e w1 H. rewrite f_at_rest, H. reflexivity.
  - intros v w1 H. rewrite f_at_rest, H. cbn [fst snd Client.caught].
    destruct v as [| | | | |[c o]| | |]; reflexivity.
  - intros v Hv. destruct v as [| | | | |m| | |]; try reflexivity.
    now destruct (Hv m).
  - intros [c o]. reflexivity.
  - intros ls s Hexec Hturn t c k x Hget.
    destruct (exec_in_order stub w ls s Hexec)
      as (handled & pending & Hsub & _ & Hout & _).
    destruct (exec_taking_turns stub w ls s Hexec Hturn) as (_ & Hgets & _).
    destruct (Hgets t c k x Hget) as [Hc Hx].
    assert (Hr : replies stub w (submitted ls) !! k = Some x).
    { rewrite Hsub, replies_app, <- Hout, <- app_assoc.
      now apply lookup_app_l_Some. }
    rewrite (replies_lookup stub w (submitted ls) k c x Hc Hr).
    unfold outcome_in_worker. split.
    + intros e ->. reflexivity.
    + intros v ->. destruct v as [| | | | |[c1 o]| | |]; reflexivity.
Qed.

Lemma two_in_turn_runs : exists s, exec fake (start world0) two_in_turn s.
Proof.
  eexists.
  eapply (exec_snoc fake _ [_; _; _; _; _]).
  - eapply (exec_snoc fake _ [_; _; _; _]).
    + eapply (exec_snoc fake _ [_; _; _]).
      * eapply (exec_snoc fake _ [_; _]).
        -- eapply (exec_snoc fake _ [_]).
           ++ eapply (exec_snoc fake _ []); [apply exec_nil|].
              apply step_put. reflexivity.
           ++ apply step_work. reflexivity.
        -- eapply step_get; reflexivity.
      * apply step_put. reflexivity.
    + apply step_work. reflexivity.
  - eapply step_get; reflexivity.
Qed.

(** A call that raises and a call that returns on a facade at rest; two
    threads that take turns. *)
Lemma facade_delivers_the_outcome_witness :
  Client.f fake (c_get_module "b") (Client.init world0) =
    Some (Raised (TAIException (-1) "module b not present"),
          Client.init (emit (EvCall RpcListModule ListModuleRequest) world0)) /\
  Client.f fake (c_create (Tag NETIF) 0 5) (Client.init world_index) =
    Some (Ok (VInt 1005),
          Client.init (snd (Client.invoke fake (c_create (Tag NETIF) 0 5) world_index))) /\
  own_outcomes fake world0 two_in_turn.
Proof.
  split; [|split].
  - exact (proj1 (facade_delivers_the_outcome fake (c_get_module "b") world0) _ _ eq_refl).
  - exact (proj1 (proj2 (facade_delivers_the_outcome fake (c_create (Tag NETIF) 0 5)
                           world_index)) _ _ eq_refl).
  - destruct two_in_turn_runs as [s Hexec].
    exact (proj2 (proj2 (proj2 (proj2
             (facade_delivers_the_outcome fake c_list world0)))) two_in_turn s Hexec eq_refl).
Defined.

(** C6 as stated fails when two threads wait at once: [swapped] is a run
    of the facade in which the coroutine of the call of thread 2 raises
    [TAIException] in the worker, and thread 2 gets the module that the
    call of thread 1 returned, while thread 1 gets the exception. *)
Lemma a_caller_gets_anothers_outcome :
  (exists s, exec fake (start world0) swapped s) /\
  ~ own_outcomes fake world0 swapped /\
  outcome_in_worker fake world0 swapped 1 (c_get_module "b") =
    Raised (TAIException (-1) "module b not present") /\
  Get 2 (c_get_module "b") 1
    (Val (VModule (Module_ sync_client (PbModule module_a)))) ∈ swapped /\
  Client.deliver (Val (VModule (Module_ sync_client (PbModule module_a)))) =
    Ok (VModule (Module_ sync_client (PbModule module_a))) /\
  outcome_in_worker fake world0 swapped 0 (c_get_module "a") =
    Ok (VModule (Module_ async_client (PbModule module_a))) /\
  Get 1 (c_get_module "a") 0
    (ExnObj (TAIException (-1) "module b not present")) ∈ swapped /\
  Client.deliver (ExnObj (TAIException (-1) "module b not present")) =
    Raised (TAIException (-1) "module b not present").
Proof.
  split; [|split; [|split; [|split; [|split; [|split; [|split]]]]]].
  - eexists.
    eapply (exec_snoc fake _ [_; _; _; _; _]).
    + eapply (exec_snoc fake _ [_; _; _; _]).
      * eapply (exec_snoc fake _ [_; _; _]).
        -- eapply (exec_snoc fake _ [_; _]).
           ++ eapply (exec_snoc fake _ [_]).
              ** eapply (exec_snoc fake _ []); [apply exec_nil|].
                 apply step_put. reflexivity.
              ** apply step_put. reflexivity.
           ++ apply step_work. reflexivity.
        -- eapply step_get; reflexivity.
      * apply step_work. reflexivity.
    + eapply step_get; reflexivity.
  - intros Hown.
    destruct (Hown 2%nat (c_get_module "b") 1%nat
                (Val (VModule (Module_ sync_client (PbModule module_a))))) as [H _].
    + unfold swapped. repeat constructor.
    + specialize (H (TAIException (-1) "module b not present") eq_refl).
      discriminate.
  - reflexivity.
  - unfold swapped. repeat constructor.
  - reflexivity.
  - reflexivity.
  - unfold swapped. repeat constructor.
  - reflexivity.
Qed.

(** C7, as the code has it.  In every run of any number of caller threads
    on one facade, the worker answers the calls one at a time in the order
    they were put on [in_q]: the replies taken from [out_q], in the order
    they are taken, are the first replies to the calls in the order they
    were put, one reply for each call; when both queues are empty every
    call has its reply taken; the worker can always go on with a queued
    call.  When the calls are made one at a time, by one thread or by
    several that take turns (no call put while another waits for its
    reply), every reply a thread takes is the reply to the call it had
    put. *)
Theorem facade_replies_in_submission_order {St} (stub : Stub St) (w0 : World St)
    (ls : list Label) (s : Sys St) :
  exec stub (start w0) ls s ->
  delivered ls `prefix_of` replies stub w0 (submitted ls) /\
  length (replies stub w0 (submitted ls)) = length (submitted ls) /\
  (in_q (bridge s) = [] -> out_q (bridge s) = [] ->
     delivered ls = replies stub w0 (submitted ls)) /\
  (in_q (bridge s) <> [] -> exists s1, step stub s Work s1) /\
  (forall t, Forall (by_thread t) ls -> own_replies stub w0 ls) /\
  (in_turn ls -> own_replies stub w0 ls).
Proof.
  intros Hexec.
  destruct (exec_in_order stub w0 ls s Hexec)
    as (handled & pending & Hsub & Hin & Hout & Hw & Halive).
  assert (Hprefix : delivered ls `prefix_of` replies stub w0 (submitted ls)).
  { exists (out_q (bridge s) ++ replies stub (world_after stub w0 handled) pending)%list.
    now rewrite Hsub, replies_app, <- Hout, <- app_assoc. }
  split; [exact Hprefix|]. split; [apply replies_length|]. split; [|split; [|split]].
  - intros Hi Ho. rewrite Hi in Hin. destruct pending; [|discriminate].
    rewrite Ho in Hout. now rewrite Hsub, !app_nil_r, <- Hout, app_nil_r.
  - intros Hne. destruct pending as [|i pending]; [now rewrite Hin in Hne|].
    destruct (Client.invoke stub i (world (bridge s))) as [r w1] eqn:Hinv.
    eexists. apply step_work. unfold Client.loop_body.
    rewrite Halive, Hin. cbn [map]. rewrite Hinv. reflexivity.
  - intros t Hall t1 i k x Hget.
    destruct (exec_alone stub w0 t ls s Hexec Hall) as (_ & Hgets & _).
    destruct (Hgets t1 i k x Hget) as [Hi Hx]. split; [exact Hi|].
    destruct Hprefix as [more ->]. now apply lookup_app_l_Some.
  - intros Hturn t1 i k x Hget.
    destruct (exec_taking_turns stub w0 ls s Hexec Hturn) as (_ & Hgets & _).
    destruct (Hgets t1 i k x Hget) as [Hi Hx]. split; [exact Hi|].
    destruct Hprefix as [more ->]. now apply lookup_app_l_Some.
Qed.

(** Two threads that take turns: each gets the reply to its own call. *)
Lemma facade_replies_in_submission_order_witness :
  own_replies fake world0 two_in_turn /\
  delivered two_in_turn = replies fake world0 (submitted two_in_turn).
Proof.
  destruct two_in_turn_runs as [s Hexec].
  destruct (facade_replies_in_submission_order fake world0 two_in_turn s Hexec)
    as ([more Hprefix] & Hlen & _ & _ & _ & Hown).
  split.
  - apply Hown. reflexivity.
  - rewrite Hprefix. destruct more; [now rewrite app_nil_r|].
    apply (f_equal length) in Hprefix. rewrite Hlen, length_app in Hprefix.
    cbn in Hprefix. lia.
Defined.

(** C7 as stated fails with two threads: the run [crossed] is a run of
    the facade, and in it thread 2 takes the reply to the call of thread
    1. *)
Lemma a_caller_takes_anothers_reply :
  (exists s, exec fake (start world0) crossed s) /\ ~ own_replies fake world0 crossed.
Proof.
  split.
  - eexists.
    eapply (exec_snoc fake _ [Put 1 (c_get_module "a"); Put 2 (c_get_module "b"); Work]).
    + eapply (exec_snoc fake _ [Put 1 (c_get_module "a"); Put 2 (c_get_module "b")]).
      * eapply (exec_snoc fake _ [Put 1 (c_get_module "a")]).
        -- eapply (exec_snoc fake _ []); [apply exec_nil|].
           apply step_put. reflexivity.
        -- apply step_put. reflexivity.
      * apply step_work. reflexivity.
    + eapply step_get; reflexivity.
  - intros Hown.
    destruct (Hown 2%nat (c_get_module "b") 1%nat
                (Val (VModule (Module_ sync_client (PbModule module_a))))) as [_ H].
    + unfold crossed. repeat constructor.
    + vm_compute in H. discriminate.
Qed.

(** * Further properties *)

(** ** The streams are used in order and released *)

Lemma protocol_app (stack : list Rpc) (t1 t2 : list Event) :
  protocol stack (t1 ++ t2) =
    match protocol stack t1 with
    | Some stack1 => protocol stack1 t2
    | None => None
    end.
Proof.
  revert stack. induction t1 as [|e t1 IH]; intros stack; [reflexivity|].
  destruct e as [rpc|req|rpc|rpc|rpc req]; cbn [app protocol].
  - apply IH.
  - destruct stack as [|top below]; [reflexivity|].
    destruct (bool_decide (top = rpc_of req) && readable req); [apply IH|reflexivity].
  - destruct stack as [|top below]; [reflexivity|].
    destruct (bool_decide (top = rpc)); [apply IH|reflexivity].
  - destruct stack as [|top below]; [reflexivity|].
    destruct (bool_decide (top = rpc)); [apply IH|reflexivity].
  - destruct (bool_decide (rpc = rpc_of req)); [apply IH|reflexivity].
Qed.

Lemma within_quiet {St A} (stack : list Rpc) (m : M St A) :
  (forall w, trace (snd (m w)) = trace w) -> within stack m.
Proof. intros H w. exists []. now rewrite H, app_nil_r. Qed.

Lemma within_ret {St A} stack (a : A) : within stack (@ret St A a).
Proof. now apply within_quiet. Qed.

Lemma within_raise {St A} stack (e : Exn) : within stack (@raise St A e).
Proof. now apply within_quiet. Qed.

Lemma within_lift {St A} stack (r : Outcome A) : within stack (@lift St A r).
Proof. now apply within_quiet. Qed.

Lemma within_deref {St} stack r : within stack (@AsyncClient.deref St r).
Proof. now apply within_quiet. Qed.

Lemma within_or_new_list {St} stack attrs : within stack (@AsyncClient.or_new_list St attrs).
Proof. apply within_quiet. now destruct attrs. Qed.

Lemma within_append {St} stack attrs entry : within stack (@AsyncClient.append St attrs entry).
Proof. now apply within_quiet. Qed.

Lemma within_bind {St A B} stack (m : M St A) (k : A -> M St B) :
  within stack m -> (forall a, within stack (k a)) -> within stack (bind m k).
Proof.
  intros Hm Hk w. unfold bind. destruct (Hm w) as (t1 & Ht1 & Hp1).
  destruct (m w) as [[a|e] w1]; cbn [snd] in Ht1.
  - destruct (Hk a w1) as (t2 & Ht2 & Hp2). exists (t1 ++ t2)%list.
    rewrite Ht2, Ht1, <- app_assoc, protocol_app, Hp1. now split.
  - exists t1. now split.
Qed.

Lemma within_open {St A} stack rpc (body : M St A) :
  within (rpc :: stack) body -> within stack (open rpc body).
Proof.
  intros Hb w. rewrite open_trace.
  destruct (Hb (emit (EvOpen rpc) w)) as (t & Ht & Hp).
  exists (EvOpen rpc :: t ++ [EvClose rpc])%list. split.
  - rewrite Ht. cbn [emit trace]. now rewrite <- !app_assoc.
  - cbn [protocol]. rewrite protocol_app, Hp. cbn [protocol].
    now rewrite bool_decide_eq_true_2.
Qed.

Lemma within_send_recv {St A} stack rpc (handler : Request -> St -> St * Exchange A) req :
  rpc_of req = rpc -> readable req = true ->
  within (rpc :: stack) (send_recv rpc handler req).
Proof.
  intros Hrpc Hopt w. exists [EvSend req; EvRecv rpc]. split; [apply send_recv_trace|].
  cbn [protocol]. now rewrite Hrpc, Hopt, !bool_decide_eq_true_2.
Qed.

Lemma within_call {St A} stack rpc (handler : St -> St * Outcome A) req :
  rpc_of req = rpc -> within stack (call rpc handler req).
Proof.
  intros Hrpc w. exists [EvCall rpc req]. split.
  - unfold call. cbn [emit srv]. now destruct (handler (srv w)).
  - cbn [protocol]. now rewrite Hrpc, bool_decide_eq_true_2.
Qed.

Create HintDb streams.
#[local] Hint Resolve within_ret within_raise within_lift within_deref within_or_new_list
  within_append : streams.

Ltac streams :=
  repeat first
    [ apply within_open
    | apply within_bind; [|intros ?]
    | apply within_send_recv; [reflexivity|reflexivity]
    | apply within_call; reflexivity
    | solve [auto with streams]
    | match goal with
      | |- within _ (match ?x with _ => _ end) => destruct x
      | |- within _ (if ?x then _ else _) => destruct x
      end ].

Lemma within_get_attribute_metadata {St} (stub : Stub St) stack t attr o location :
  within stack (AsyncClient.get_attribute_metadata stub t attr o location).
Proof. unfold AsyncClient.get_attribute_metadata. streams. Qed.
#[local] Hint Resolve within_get_attribute_metadata : streams.

Lemma within_get_attribute_capability {St} (stub : Stub St) stack o attr j :
  within stack (AsyncClient.get_attribute_capability stub o attr j).
Proof. unfold AsyncClient.get_attribute_capability. streams. Qed.

Lemma within_get_attributes {St} (stub : Stub St) stack t o with_metadata attributes meta a req :
  within stack (AsyncClient.get_attributes stub t o with_metadata attributes meta a req).
Proof.
  revert meta a req. induction attributes as [|arg rest IH]; intros meta a req;
    cbn [AsyncClient.get_attributes]; [streams|].
  destruct arg as [r|r v]; streams.
Qed.
#[local] Hint Resolve within_get_attributes : streams.

Lemma within_get_multiple {St} (stub : Stub St) stack t o attributes with_metadata j :
  within stack (AsyncClient.get_multiple stub t o attributes with_metadata j).
Proof. unfold AsyncClient.get_multiple. streams. Qed.
#[local] Hint Resolve within_get_multiple : streams.

Lemma within_get {St} (stub : Stub St) stack t o attr with_metadata value j :
  within stack (AsyncClient.get stub t o attr with_metadata value j).
Proof. unfold AsyncClient.get. streams. Qed.
#[local] Hint Resolve within_get : streams.

Lemma within_set_attributes {St} (stub : Stub St) stack t o attributes :
  within stack (AsyncClient.set_attributes stub t o attributes).
Proof.
  induction attributes as [|[attr value] rest IH]; cbn [AsyncClient.set_attributes]; streams.
Qed.
#[local] Hint Resolve within_set_attributes : streams.

Lemma within_set_multiple {St} (stub : Stub St) stack t o attributes :
  within stack (AsyncClient.set_multiple stub t o attributes).
Proof. unfold AsyncClient.set_multiple. streams. Qed.
#[local] Hint Resolve within_set_multiple : streams.

Lemma within_create_attrs {St} (stub : Stub St) stack t location attrs :
  within stack (AsyncClient.create_attrs stub t location attrs).
Proof.
  induction attrs as [|[attr_id value] rest IH]; cbn [AsyncClient.create_attrs]; streams.
Qed.
#[local] Hint Resolve within_create_attrs : streams.

Lemma within_create {St} (stub : Stub St) stack t attrs module_id :
  within stack (AsyncClient.create stub t attrs module_id).
Proof. unfold AsyncClient.create. streams. Qed.
#[local] Hint Resolve within_create : streams.

Lemma within_get_module {St} (stub : Stub St) stack location :
  within stack (AsyncClient.get_module stub location).
Proof. unfold AsyncClient.get_module. streams. Qed.
#[local] Hint Resolve within_get_module : streams.

Lemma within_list {St} (stub : Stub St) stack : within stack (AsyncClient.list stub).
Proof. unfold AsyncClient.list. streams. Qed.
#[local] Hint Resolve within_list : streams.

Lemma within_set_log_level {St} (stub : Stub St) stack l api :
  within stack (AsyncClient.set_log_level stub l api).
Proof.
  unfold AsyncClient.set_log_level. streams.
  intros w. eexists [EvCall RpcSetLogLevel _]. split.
  - cbn [emit srv trace].
    match goal with
    | |- context [SetLogLevel stub ?r ?s] => destruct (SetLogLevel stub r s) as [s1 [e|]]
    end; reflexivity.
  - reflexivity.
Qed.

Lemma within_monitor_loop {St} (stub : Stub St) stack fuel obj m callback :
  within (RpcMonitor :: stack) (AsyncClient.monitor_loop stub fuel obj m callback).
Proof.
  induction fuel as [|n IH]; cbn [AsyncClient.monitor_loop]; [streams|].
  apply within_bind; [|intros msg; destruct (callback obj m msg); streams].
  intros w. exists [EvRecv RpcMonitor]. split; [|reflexivity].
  unfold AsyncClient.recv. now destruct (MonitorRecv stub (srv w)).
Qed.

Lemma within_send {St} (stub : Stub St) stack o a opt :
  readable (MonitorRequest o a opt) = true ->
  within (RpcMonitor :: stack) (AsyncClient.send stub (MonitorRequest o a opt)).
Proof.
  intros Hopt w. exists [EvSend (MonitorRequest o a opt)]. split.
  - unfold AsyncClient.send. cbn [emit srv trace].
    now destruct (Monitor stub (MonitorRequest o a opt) (srv w)) as [s1 [e|]].
  - cbn [protocol rpc_of]. now rewrite Hopt, bool_decide_eq_true_2.
Qed.

(** What [monitor] adds to the log: with the notification stream still
    open while it runs, with every stream released once it has raised. *)
Lemma monitor_streams {St} (stub : Stub St) stack fuel obj attr_id callback j (w : World St) :
  exists t,
    trace (snd (AsyncClient.monitor stub fuel obj attr_id callback j w)) = (trace w ++ t)%list /\
    protocol stack t =
      match fst (AsyncClient.monitor stub fuel obj attr_id callback j w) with
      | Ok StillRunning => Some (RpcMonitor :: stack)
      | Raised _ => Some stack
      end.
Proof.
  unfold AsyncClient.monitor, AsyncClient.open_while_running.
  match goal with
  | |- context [match ?body (emit (EvOpen RpcMonitor) w) with _ => _ end] =>
      assert (Hbody : within (RpcMonitor :: stack) body)
  end.
  { apply within_bind; [streams|intros m].
    destruct (negb _); [streams|].
    apply within_bind; [|intros _; apply within_monitor_loop].
    now apply within_send. }
  destruct (Hbody (emit (EvOpen RpcMonitor) w)) as (t & Ht & Hp).
  match goal with
  | |- context [match ?x with _ => _ end] => destruct x as [[[]|e] w1]
  end; cbn [fst snd] in *.
  - exists (EvOpen RpcMonitor :: t). split.
    + rewrite Ht. cbn [emit trace]. now rewrite <- app_assoc.
    + exact Hp.
  - exists (EvOpen RpcMonitor :: t ++ [EvClose RpcMonitor])%list. split.
    + cbn [emit trace]. rewrite Ht. cbn [emit trace]. now rewrite <- !app_assoc.
    + cbn [protocol]. rewrite protocol_app, Hp. cbn [protocol].
      now rewrite bool_decide_eq_true_2.
Qed.


Lemma within_create_module {St} (stub : Stub St) stack location attrs :
  within stack (AsyncClient.create_module stub location attrs).
Proof. unfold AsyncClient.create_module. streams. Qed.

Lemma within_invoke {St} (stub : Stub St) stack (i : Command) :
  within stack (Client.invoke stub i).
Proof.
  destruct i; cbn [Client.invoke];
    try (apply within_bind; [|intros ?; apply within_ret]);
    auto using within_get_attribute_capability, within_create_module, within_set_log_level
      with streams.
  - unfold AsyncClient.list_attribute_metadata. streams.
  - unfold AsyncClient.remove. streams.
  - unfold AsyncClient.set. streams.
  - streams.
Qed.

Lemma within_blocking_call {St} (stub : Stub St) stack (i : Command) :
  within stack (Client.blocking_call stub i).
Proof. intros w. rewrite blocking_call_runs. apply within_invoke. Qed.

Lemma within_client_create {St} (stub : Stub St) stack client t attrs module_id :
  within stack (client_create stub client t attrs module_id).
Proof.
  destruct client; cbn [client_create]; [streams|].
  apply within_bind; [apply within_blocking_call|intros ?; streams].
Qed.

Lemma within_client_list {St} (stub : Stub St) stack client :
  within stack (client_list stub client).
Proof.
  destruct client; cbn [client_list]; [streams|].
  apply within_bind; [apply within_blocking_call|intros ?; streams].
Qed.
#[local] Hint Resolve within_client_create within_client_list : streams.

Lemma within_create_netif {St} (stub : Stub St) stack self index attrs :
  within stack (create_netif stub self index attrs).
Proof. unfold create_netif, refresh. streams. Qed.

Lemma within_create_hostif {St} (stub : Stub St) stack self index attrs :
  within stack (create_hostif stub self index attrs).
Proof. unfold create_hostif, refresh. streams. Qed.

Lemma protocol_counts (stack stack1 : list Rpc) (t : list Event) :
  protocol stack t = Some stack1 ->
  (length stack + opens t = length stack1 + closes t)%nat.
Proof.
  revert stack. induction t as [|e t IH]; intros stack H.
  - injection H as <-. reflexivity.
  - destruct e as [rpc|req|rpc|rpc|rpc req]; cbn [protocol] in H.
    + apply IH in H. cbn [length] in H.
      change (opens (EvOpen rpc :: t)) with (S (opens t)).
      change (closes (EvOpen rpc :: t)) with (closes t). lia.
    + destruct stack as [|top below]; [discriminate|].
      destruct (bool_decide (top = rpc_of req) && readable req); [|discriminate].
      now apply IH in H.
    + destruct stack as [|top below]; [discriminate|].
      destruct (bool_decide (top = rpc)); [|discriminate]. now apply IH in H.
    + destruct stack as [|top below]; [discriminate|].
      destruct (bool_decide (top = rpc)); [|discriminate]. apply IH in H.
      cbn [length].
      change (opens (EvClose rpc :: t)) with (opens t).
      change (closes (EvClose rpc :: t)) with (S (closes t)). lia.
    + destruct (bool_decide (rpc = rpc_of req)); [|discriminate]. now apply IH in H.
Qed.

Lemma protocol_readable (stack stack1 : list Rpc) (t : list Event) (req : Request) :
  protocol stack t = Some stack1 -> EvSend req ∈ t -> readable req = true.
Proof.
  revert stack. induction t as [|e t IH]; intros stack H Hin.
  - now apply elem_of_nil in Hin.
  - apply elem_of_cons in Hin as [<-|Hin].
    + cbn [protocol] in H. destruct stack as [|top below]; [discriminate|].
      destruct (readable req); [reflexivity|].
      now rewrite andb_false_r in H.
    + destruct e as [rpc|req1|rpc|rpc|rpc req1]; cbn [protocol] in H.
      * now apply (IH _ H).
      * destruct stack as [|top below]; [discriminate|].
        destruct (bool_decide (top = rpc_of req1) && readable req1); [|discriminate].
        now apply (IH _ H).
      * destruct stack as [|top below]; [discriminate|].
        destruct (bool_decide (top = rpc)); [|discriminate]. now apply (IH _ H).
      * destruct stack as [|top below]; [discriminate|].
        destruct (bool_decide (top = rpc)); [|discriminate]. now apply (IH _ H).
      * destruct (bool_decide (rpc = rpc_of req1)); [|discriminate]. now apply (IH _ H).
Qed.

(** X1. Whatever a coroutine of the client does and however it ends, the
    log only grows, and what it adds opens and releases streams in nested
    order, a message going over the innermost open stream only.  For every
    call through [Client] and for [create_netif] and [create_hostif]
    every stream opened has been released at the end.  For [monitor] the
    same holds once it has raised; as long as it is running, the
    notification stream and no other is open. *)
Theorem streams_are_nested_and_released {St} (stub : Stub St) (w : World St)
    (i : Command) (fuel : nat) (obj : TAIObject) (attr_id : AttrRef) (callback : Callback)
    (j : bool) (self : ModuleObj) (index : Z) (attrs : option nat) :
  let tidy (t1 : list Event) :=
    exists t, t1 = (trace w ++ t)%list /\ protocol [] t = Some [] /\ opens t = closes t in
  tidy (trace (snd (Client.invoke stub i w))) /\
  tidy (trace (snd (create_netif stub self index attrs w))) /\
  tidy (trace (snd (create_hostif stub self index attrs w))) /\
  exists t,
    trace (snd (AsyncClient.monitor stub fuel obj attr_id callback j w)) = (trace w ++ t)%list /\
    match fst (AsyncClient.monitor stub fuel obj attr_id callback j w) with
    | Raised _ => protocol [] t = Some [] /\ opens t = closes t
    | Ok StillRunning => protocol [] t = Some [RpcMonitor] /\ opens t = S (closes t)
    end.
Proof.
  assert (H : forall A (m : M St A), within [] m ->
            exists t, trace (snd (m w)) = (trace w ++ t)%list /\
                      protocol [] t = Some [] /\ opens t = closes t).
  { intros A m Hm. destruct (Hm w) as (t & Ht & Hp). exists t.
    split; [exact Ht|]. split; [exact Hp|]. apply protocol_counts in Hp. cbn in Hp. lia. }
  cbn zeta. split; [|split; [|split]].
  - apply H, within_invoke.
  - apply H, within_create_netif.
  - apply H, within_create_hostif.
  - destruct (monitor_streams stub [] fuel obj attr_id callback j w) as (t & Ht & Hp).
    exists t. split; [exact Ht|].
    destruct (fst (AsyncClient.monitor stub fuel obj attr_id callback j w)) as [[]|e];
      (split; [exact Hp|]); apply protocol_counts in Hp; cbn in Hp; lia.
Qed.

(** X2. Every request with a serialization directive that a call through
    [Client], [monitor], [create_netif] or [create_hostif] sends has
    [human] and [value_only] set. *)
Theorem requests_are_human_readable {St} (stub : Stub St) (w : World St)
    (i : Command) (fuel : nat) (obj : TAIObject) (attr_id : AttrRef) (callback : Callback)
    (j : bool) (self : ModuleObj) (index : Z) (attrs : option nat) :
  let plain (t1 : list Event) :=
    exists t, t1 = (trace w ++ t)%list /\
      forall req opt, EvSend req ∈ t -> option_of req = Some opt ->
        human opt = true /\ value_only opt = true in
  plain (trace (snd (Client.invoke stub i w))) /\
  plain (trace (snd (AsyncClient.monitor stub fuel obj attr_id callback j w))) /\
  plain (trace (snd (create_netif stub self index attrs w))) /\
  plain (trace (snd (create_hostif stub self index attrs w))).
Proof.
  assert (H : forall A (m : M St A), within [] m ->
            exists t, trace (snd (m w)) = (trace w ++ t)%list /\
              forall req opt, EvSend req ∈ t -> option_of req = Some opt ->
                human opt = true /\ value_only opt = true).
  { intros A m Hm. destruct (Hm w) as (t & Ht & Hp). exists t.
    split; [exact Ht|]. intros req opt Hin Hopt.
    pose proof (protocol_readable _ _ _ _ Hp Hin) as Hr.
    unfold readable in Hr. rewrite Hopt in Hr. now apply andb_true_iff in Hr. }
  cbn zeta. split; [|split; [|split]].
  - apply H, within_invoke.
  - destruct (monitor_streams stub [] fuel obj attr_id callback j w) as (t & Ht & Hp).
    exists t. split; [exact Ht|]. intros req opt Hin Hopt.
    assert (Hr : readable req = true).
    { destruct (fst (AsyncClient.monitor stub fuel obj attr_id callback j w)) as [[]|e];
        exact (protocol_readable _ _ _ _ Hp Hin). }
    unfold readable in Hr. rewrite Hopt in Hr. now apply andb_true_iff in Hr.
  - apply H, within_create_netif.
  - apply H, within_create_hostif.
Qed.


(** ** [set_log_level] *)

Ltac not_among H :=
  intros H; repeat (apply elem_of_cons in H as [H|H]; [discriminate|]);
  now apply elem_of_nil in H.

Ltac among := repeat first [apply list_elem_of_here | apply list_elem_of_further].

Lemma level_of_unknown (l : string) :
  l ∉ level_names ->
  AsyncClient.level_of l =
    Raised (PyException ("invalid log level: " +:+ l +:+
              ". choose from [debug, info, notice, warn, error, critical]")).
Proof.
  intros H. unfold AsyncClient.level_of.
  repeat match goal with
  | |- context [String.eqb l ?s] =>
      destruct (String.eqb_spec l s) as [->|_];
        [exfalso; apply H; unfold level_names; among|]
  end.
  reflexivity.
Qed.

Lemma level_of_known (l : string) :
  l ∈ level_names -> exists level, AsyncClient.level_of l = Ok level.
Proof.
  unfold level_names. rewrite !elem_of_cons, elem_of_nil.
  intros [->|[->|[->|[->|[->|[->|[]]]]]]]; eexists; reflexivity.
Qed.

Lemma api_of_unknown (api : string) :
  api ∉ api_names ->
  AsyncClient.api_of api =
    Raised (PyException "invalid api type. choose from [module, netif, hostif, unspecified]").
Proof.
  intros H. unfold AsyncClient.api_of.
  repeat match goal with
  | |- context [String.eqb api ?s] =>
      destruct (String.eqb_spec api s) as [->|_];
        [exfalso; apply H; unfold api_names; among|]
  end.
  reflexivity.
Qed.

Lemma api_of_known (api : string) :
  api ∈ api_names -> exists a, AsyncClient.api_of api = Ok a.
Proof.
  unfold api_names. rewrite !elem_of_cons, elem_of_nil.
  intros [->|[->|[->|[->|[]]]]]; eexists; reflexivity.
Qed.

(** X3. [set_log_level] checks the level name, then the api name, before
    it calls the stub: an unknown level raises with the world untouched,
    whatever the api name; a known level with an unknown api name raises
    with the world untouched; with both known the stub is called exactly
    once, with [SetLogLevelRequest]. *)
Theorem set_log_level_checks_names_first {St} (stub : Stub St) (l api : string)
    (w : World St) :
  (l ∉ level_names ->
     AsyncClient.set_log_level stub l api w =
       (Raised (PyException ("invalid log level: " +:+ l +:+
                  ". choose from [debug, info, notice, warn, error, critical]")), w)) /\
  (l ∈ level_names -> api ∉ api_names ->
     AsyncClient.set_log_level stub l api w =
       (Raised (PyException
                  "invalid api type. choose from [module, netif, hostif, unspecified]"), w)) /\
  (l ∈ level_names -> api ∈ api_names ->
     exists level a,
       trace (snd (AsyncClient.set_log_level stub l api w)) =
         (trace w ++ [EvCall RpcSetLogLevel (SetLogLevelRequest level a)])%list).
Proof.
  unfold AsyncClient.set_log_level, bind, lift. split; [|split].
  - intros Hl. now rewrite (level_of_unknown l Hl).
  - intros Hl Ha. destruct (level_of_known l Hl) as [level ->].
    now rewrite (api_of_unknown api Ha).
  - intros Hl Ha. destruct (level_of_known l Hl) as [level ->].
    destruct (api_of_known api Ha) as [a ->]. exists level, a.
    cbn [emit srv trace].
    now destruct (SetLogLevel stub (SetLogLevelRequest level a) (srv w)) as [s1 [e|]].
Qed.

Lemma set_log_level_checks_names_first_witness :
  AsyncClient.set_log_level fake "bogus" "bogus" world0 =
    (Raised (PyException
       "invalid log level: bogus. choose from [debug, info, notice, warn, error, critical]"),
     world0) /\
  AsyncClient.set_log_level fake "debug" "bogus" world0 =
    (Raised (PyException "invalid api type. choose from [module, netif, hostif, unspecified]"),
     world0) /\
  exists level a,
    trace (snd (AsyncClient.set_log_level fake "warn" "netif" world0)) =
      [EvCall RpcSetLogLevel (SetLogLevelRequest level a)].
Proof.
  split; [|split].
  - apply (proj1 (set_log_level_checks_names_first fake "bogus" "bogus" world0)).
    unfold level_names. not_among H.
  - apply (proj1 (proj2 (set_log_level_checks_names_first fake "debug" "bogus" world0))).
    + unfold level_names. among.
    + unfold api_names. not_among H.
  - apply (proj2 (proj2 (set_log_level_checks_names_first fake "warn" "netif" world0))).
    + unfold level_names. among.
    + unfold api_names. among.
Defined.

(** ** A descriptor as the reference *)

(** X4. With a descriptor as the reference, [set], [get] and
    [get_attribute_capability] take its id and make no metadata lookup:
    they run as with that id, and [get] with metadata returns the
    descriptor it was given.  [monitor] passes the reference to
    [get_attribute_metadata], which accepts an id or a name only: it
    raises "invalid argument" with both streams opened and released and
    nothing sent. *)
Theorem descriptor_as_reference {St} (stub : Stub St) (t : TAIObjectType) (o : Z)
    (m : AttributeMetadata) (value : PyVal) (j : bool) (fuel : nat) (obj : TAIObject)
    (callback : Callback) (w : World St) :
  AsyncClient.set stub t o (Resolved m) value w =
    AsyncClient.set stub t o (ById (md_attr_id m)) value w /\
  AsyncClient.get stub t o (Resolved m) false PyNone j w =
    AsyncClient.get stub t o (ById (md_attr_id m)) false PyNone j w /\
  AsyncClient.get_attribute_capability stub o (Resolved m) j w =
    AsyncClient.get_attribute_capability stub o (ById (md_attr_id m)) j w /\
  (forall x w1, AsyncClient.get stub t o (Resolved m) true PyNone j w = (Ok x, w1) ->
     exists v, x = WithMeta v m) /\
  AsyncClient.monitor stub fuel obj (Resolved m) callback j w =
    (Raised (PyException "invalid argument"),
     {| srv := srv w;
        trace := (trace w ++ [EvOpen RpcMonitor; EvOpen RpcGetAttributeMetadata;
                              EvClose RpcGetAttributeMetadata; EvClose RpcMonitor])%list;
        heap := heap w |}).
Proof.
  split; [reflexivity|]. split; [|split; [reflexivity|split]].
  - unfold AsyncClient.get, AsyncClient.get_multiple, open.
    cbn [AsyncClient.get_attributes truthy]. unfold bind, ret, lift.
    rewrite !send_recv_runs. cbn [fst snd].
    match goal with |- context [answer ?e] => destruct (answer e) as [res|e1] end;
      [|reflexivity].
    now rewrite !collect_plain.
  - intros x w1. unfold AsyncClient.get, AsyncClient.get_multiple, open.
    cbn [AsyncClient.get_attributes truthy]. unfold bind, ret, lift.
    rewrite send_recv_runs. cbn [fst snd].
    match goal with |- context [answer ?e] => destruct (answer e) as [res|e1] end;
      [|discriminate].
    destruct res as [|a res]; cbn [AsyncClient.collect]; [discriminate|].
    destruct (AsyncClient.collect true (Some m) res); [|discriminate].
    intros [= <- _]. now eexists.
  - unfold AsyncClient.monitor, AsyncClient.open_while_running,
      AsyncClient.get_attribute_metadata, open, bind, raise, emit.
    cbn [srv trace heap]. now rewrite <- !app_assoc.
Qed.

(** ** The value hint of [get] *)

Lemma get_attributes_request {St} (stub : Stub St) t o with_metadata attributes meta a req
    (w w1 : World St) st :
  AsyncClient.get_attributes stub t o with_metadata attributes meta a req w = (Ok st, w1) ->
  exists more,
    snd st = (req ++ more)%list /\
    length more = length attributes /\
    Forall (fun x => at_value x = EmptyString) more.
Proof.
  revert meta a req w. induction attributes as [|arg rest IH]; intros meta a req w H.
  - injection H as <- <-. exists []. now rewrite app_nil_r.
  - cbn [AsyncClient.get_attributes] in H.
    destruct arg as [r|r v];
      match type of H with
      | bind ?m ?k w = _ =>
          unfold bind at 1 in H; destruct (m w) as [[st0|e] w0]; [|discriminate]
      end;
      apply IH in H as (more & Hreq & Hlen & Hall);
      (eexists (_ :: more); split; [rewrite Hreq, <- app_assoc; reflexivity|];
       split; [cbn [length]; now rewrite Hlen|]; now constructor).
Qed.

(** X5. The value hint of [get] and [get_multiple] never reaches the
    service: the request the first loop builds has one attribute for each
    entry, each with an empty value.  With a descriptor as the reference a
    hint that is true in a condition makes [get] raise [UnboundLocalError]
    before anything is sent, the stream opened and released. *)
Theorem value_hints_are_not_sent {St} (stub : Stub St) (t : TAIObjectType) (o : Z)
    (with_metadata : bool) (j : bool) (w : World St) :
  (forall attributes st w1,
     AsyncClient.get_attributes stub t o with_metadata attributes None None [] w = (Ok st, w1) ->
     length (snd st) = length attributes /\
     Forall (fun x => at_value x = EmptyString) (snd st)) /\
  (forall m value, truthy value = true ->
     AsyncClient.get stub t o (Resolved m) with_metadata value j w =
       (Raised (UnboundLocalError "a"),
        {| srv := srv w;
           trace := (trace w ++ [EvOpen RpcGetAttribute; EvClose RpcGetAttribute])%list;
           heap := heap w |})).
Proof.
  split.
  - intros attributes st w1 H.
    apply get_attributes_request in H as (more & Hreq & Hlen & Hall).
    cbn [app] in Hreq. rewrite Hreq. now split.
  - intros m value Hv.
    unfold AsyncClient.get, AsyncClient.get_multiple, open.
    cbn [AsyncClient.get_attributes]. rewrite Hv.
    unfold bind, raise, emit. cbn [srv trace heap]. now rewrite <- !app_assoc.
Qed.

Lemma value_hints_are_not_sent_witness :
  fst (AsyncClient.get fake MODULE 5 (Resolved descriptor_9) false (PyInt 1) false world0) =
    Raised (UnboundLocalError "a") /\
  (forall st w1,
     AsyncClient.get_attributes fake MODULE 5 false
       [Hinted (ById 1) (PyStr "x"); Bare (ByName "index")] None None [] world0 = (Ok st, w1) ->
     length (snd st) = 2%nat /\ Forall (fun x => at_value x = EmptyString) (snd st)).
Proof.
  destruct (value_hints_are_not_sent fake MODULE 5 false false world0) as [Hreq Hraise].
  split.
  - now rewrite (Hraise descriptor_9 (PyInt 1) eq_refl).
  - intros st w1 H. exact (Hreq _ st w1 H).
Defined.


Lemma descriptor_as_reference_witness :
  fst (AsyncClient.get fake MODULE 5 (Resolved descriptor_9) true PyNone false world0) =
    Ok (WithMeta "9" descriptor_9) /\
  fst (AsyncClient.monitor fake 3 object_a (Resolved descriptor_9) quiet false world0) =
    Raised (PyException "invalid argument").
Proof.
  destruct (descriptor_as_reference fake MODULE 5 descriptor_9 PyNone false 3 object_a quiet
              world0) as (_ & _ & _ & Hget & Hmon).
  split.
  - destruct (AsyncClient.get fake MODULE 5 (Resolved descriptor_9) true PyNone false world0)
      as [r w1] eqn:E.
    destruct r as [x|e]; [|discriminate E].
    destruct (Hget x w1 eq_refl) as [v ->]. injection E as E _. now rewrite <- E.
  - now rewrite Hmon.
Defined.

(** ** Batches by id *)

Lemma get_attributes_numeric {St} (stub : Stub St) t o (l : list (Z * option PyVal))
    meta a req (w : World St) :
  AsyncClient.get_attributes stub t o false (numeric l) meta a req w =
    (Ok (meta, (req ++ map (fun p => bare_attribute (fst p)) l)%list), w).
Proof.
  revert a req. induction l as [|[i h] l IH]; intros a req.
  - cbn [numeric map AsyncClient.get_attributes]. now rewrite app_nil_r.
  - cbn [numeric map AsyncClient.get_attributes fst snd].
    destruct h as [v|]; unfold bind, ret; cbn [fst snd];
      fold (bare_attribute i); fold (numeric l);
      rewrite IH, <- app_assoc; reflexivity.
Qed.

(** [get_multiple] of numeric ids without metadata, run. *)
Lemma get_multiple_numeric {St} (stub : Stub St) (t : TAIObjectType) (o : Z)
    (l : list (Z * option PyVal)) (j : bool) (w : World St) :
  let req := GetAttributeRequest o (map (fun p => bare_attribute (fst p)) l)
               (with_json set_default_serialize_option j) in
  AsyncClient.get_multiple stub t o (numeric l) false j w =
    (match answer (snd (GetAttribute stub req (srv w))) with
     | Ok res => Ok (map (fun a => Plain (at_value a)) res)
     | Raised e => Raised e
     end,
     {| srv := fst (GetAttribute stub req (srv w));
        trace := (trace w ++ [EvOpen RpcGetAttribute; EvSend req; EvRecv RpcGetAttribute;
                              EvClose RpcGetAttribute])%list;
        heap := heap w |}).
Proof.
  cbn zeta. unfold AsyncClient.get_multiple, open.
  rewrite (bind_ok _ _ _ _ _
             (get_attributes_numeric stub t o l None None [] (emit (EvOpen RpcGetAttribute) w))).
  cbn [fst snd app].
  unfold bind, lift. rewrite send_recv_runs. cbn [emit srv trace heap fst snd].
  match goal with |- context [answer ?e] => destruct (answer e) as [res|e1] end;
    rewrite ?collect_plain; unfold emit; cbn [srv trace heap]; now rewrite <- !app_assoc.
Qed.

(** X6. A [get_multiple] of numeric ids without metadata opens the one
    stream of its request and makes no lookup; the request lists the ids
    in order with empty values, hints or not; the result is the values of
    the reply in the order and number the service returned them (or the
    failure of the exchange). *)
Theorem get_multiple_by_ids {St} (stub : Stub St) (t : TAIObjectType) (o : Z)
    (l : list (Z * option PyVal)) (j : bool) (w : World St) :
  let req := GetAttributeRequest o (map (fun p => bare_attribute (fst p)) l)
               (with_json set_default_serialize_option j) in
  AsyncClient.get_multiple stub t o (numeric l) false j w =
    (match answer (snd (GetAttribute stub req (srv w))) with
     | Ok res => Ok (map (fun a => Plain (at_value a)) res)
     | Raised e => Raised e
     end,
     {| srv := fst (GetAttribute stub req (srv w));
        trace := (trace w ++ [EvOpen RpcGetAttribute; EvSend req; EvRecv RpcGetAttribute;
                              EvClose RpcGetAttribute])%list;
        heap := heap w |}).
Proof. apply get_multiple_numeric. Qed.

(** X7. [get] by id without metadata returns the first value of the
    reply and drops the others; when the service answers with no attribute
    at all it raises [IndexError]. *)
Theorem get_takes_the_first_value {St} (stub : Stub St) (t : TAIObjectType) (o : Z) (i : Z)
    (value : PyVal) (j : bool) (w : World St) (s1 : St) (res : list Attribute) (msg : string) :
  GetAttribute stub
    (GetAttributeRequest o [bare_attribute i] (with_json set_default_serialize_option j))
    (srv w) = (s1, Reply res 0 msg) ->
  fst (AsyncClient.get stub t o (ById i) false value j w) =
    match res with
    | [] => Raised IndexError
    | a :: _ => Ok (Plain (at_value a))
    end.
Proof.
  intros H. unfold AsyncClient.get.
  pose proof (get_multiple_numeric stub t o [(i, Some value)] j w) as Hrun.
  cbn zeta in Hrun. cbn [numeric map fst snd] in Hrun.
  unfold bind. rewrite Hrun, H. cbn [snd answer check_metadata Z.eqb negb].
  now destruct res.
Qed.

Lemma get_takes_the_first_value_witness :
  fst (AsyncClient.get fake MODULE 5 (ById 1) false (PyStr "hint") false world0) =
    Ok (Plain "a").
Proof.
  exact (get_takes_the_first_value fake MODULE 5 1 (PyStr "hint") false world0 _ _ _ eq_refl).
Defined.

(** ** The status footer *)

Lemma answer_status {A} (res : A) (code : Z) (msg : string) :
  code <> 0 -> answer (Reply res code msg) = Raised (TAIException code msg).
Proof.
  intros H. cbn [answer]. unfold check_metadata.
  now destruct (Z.eqb_spec code 0).
Qed.

(** X8. A status footer with a code other than 0 makes the operation
    raise [TAIException] with that code and that message, whatever the
    response holds: so for [remove], for a metadata lookup, for [set] and
    for [get]. *)
Theorem nonzero_status_raises {St} (stub : Stub St) (t : TAIObjectType) (o : Z) (i : Z)
    (value : PyVal) (j : bool) (code : Z) (msg : string) (w : World St) :
  code <> 0 ->
  (forall s1 res, Remove stub (RemoveRequest o) (srv w) = (s1, Reply res code msg) ->
     fst (AsyncClient.remove stub o w) = Raised (TAIException code msg)) /\
  (forall s1 res,
     GetAttributeMetadata stub (by_id_request t o i) (srv w) = (s1, Reply res code msg) ->
     fst (AsyncClient.get_attribute_metadata stub t (ById i) o (PyStr EmptyString) w) =
       Raised (TAIException code msg)) /\
  (forall s1 res,
     SetAttribute stub
       (SetAttributeRequest o [{| at_attr_id := i; at_value := str value |}]
          set_default_serialize_option) (srv w) = (s1, Reply res code msg) ->
     fst (AsyncClient.set stub t o (ById i) value w) = Raised (TAIException code msg)) /\
  (forall s1 res,
     GetAttribute stub
       (GetAttributeRequest o [bare_attribute i] (with_json set_default_serialize_option j))
       (srv w) = (s1, Reply res code msg) ->
     fst (AsyncClient.get stub t o (ById i) false value j w) = Raised (TAIException code msg)).
Proof.
  intros Hcode. split; [|split; [|split]]; intros s1 res H.
  - unfold AsyncClient.remove, open. rewrite send_recv_runs. cbn [emit srv fst snd].
    rewrite H. cbn [snd]. now apply answer_status.
  - unfold AsyncClient.get_attribute_metadata, open. rewrite send_recv_runs.
    cbn [emit srv fst snd]. fold (by_id_request t o i). rewrite H. cbn [snd].
    now apply answer_status.
  - unfold AsyncClient.set, AsyncClient.set_multiple, open.
    cbn [AsyncClient.set_attributes]. unfold bind, ret. rewrite send_recv_runs.
    cbn [emit srv fst snd]. rewrite H. cbn [snd]. now rewrite answer_status.
  - unfold AsyncClient.get.
    pose proof (get_multiple_numeric stub t o [(i, Some value)] j w) as Hrun.
    cbn zeta in Hrun. cbn [numeric map fst snd] in Hrun.
    unfold bind. rewrite Hrun, H. cbn [snd]. now rewrite answer_status.
Qed.

Lemma nonzero_status_raises_witness :
  fst (AsyncClient.get_attribute_metadata fake MODULE (ById 77) 5 (PyStr EmptyString) world0) =
    Raised (TAIException (-7) "no such attribute").
Proof.
  assert (H : -7 <> 0) by discriminate.
  exact (proj1 (proj2 (nonzero_status_raises fake MODULE 5 77 PyNone false (-7)
                         "no such attribute" world0 H)) _ _ eq_refl).
Defined.

(** ** Values are sent as [str(value)] *)

(** X9. [set_multiple] and [create] put one attribute in the request for
    each entry, in the order of the entries, with [str(value)] as its
    value; an entry by id or by descriptor gets that id. *)
Theorem values_are_sent_as_str {St} (stub : Stub St) (t : TAIObjectType) (o : Z)
    (location : PyVal) (entries : list (AttrRef * PyVal)) (req : list Attribute)
    (w w1 : World St) :
  (AsyncClient.set_attributes stub t o entries w = (Ok req, w1) ->
     map at_value req = map (fun p => str (snd p)) entries /\
     forall k i v, entries !! k = Some (ById i, v) -> at_attr_id <$> req !! k = Some i) /\
  (AsyncClient.create_attrs stub t location entries w = (Ok req, w1) ->
     map at_value req = map (fun p => str (snd p)) entries).
Proof.
  split.
  - revert req w. induction entries as [|[attr value] rest IH]; intros req w H.
    + injection H as <- _. split; [reflexivity|]. intros k i v Hk.
      now rewrite lookup_nil in Hk.
    + cbn [AsyncClient.set_attributes] in H. unfold bind at 1 in H.
      match type of H with
      | match ?m with _ => _ end = _ => destruct m as [[attr_id|e] w0] eqn:Hid
      end; [|discriminate].
      unfold bind at 1 in H.
      destruct (AsyncClient.set_attributes stub t o rest w0) as [[more|e] w2] eqn:Hrest;
        [|discriminate].
      injection H as <- <-. destruct (IH more w0 Hrest) as [Hv Hi].
      split; [cbn [map snd at_value]; now rewrite Hv|].
      intros [|k] i v Hk; cbn [lookup list_lookup] in *.
      * injection Hk as -> ->. injection Hid as <- _. reflexivity.
      * exact (Hi k i v Hk).
  - revert req w. induction entries as [|[attr value] rest IH]; intros req w H.
    + now injection H as <- _.
    + cbn [AsyncClient.create_attrs] in H. unfold bind at 1 in H.
      destruct (AsyncClient.get_attribute_metadata stub t attr 0 location w)
        as [[meta|e] w0]; [|discriminate].
      unfold bind at 1 in H.
      destruct (AsyncClient.create_attrs stub t location rest w0) as [[more|e] w2] eqn:Hrest;
        [|discriminate].
      injection H as <- <-. cbn [map snd at_value]. now rewrite (IH more w0 Hrest).
Qed.

Lemma values_are_sent_as_str_witness :
  fst (AsyncClient.set_attributes fake MODULE 5 [(ById 4, PyInt (-12)); (ByName "index", PyNone)]
         world0) =
    Ok [{| at_attr_id := 4; at_value := "-12" |}; {| at_attr_id := 2; at_value := "None" |}].
Proof.
  destruct (AsyncClient.set_attributes fake MODULE 5
              [(ById 4, PyInt (-12)); (ByName "index", PyNone)] world0) as [r w1] eqn:E.
  destruct r as [req|e]; [|discriminate E].
  destruct (proj1 (values_are_sent_as_str fake MODULE 5 PyNone _ req world0 w1) E) as [Hv _].
  injection E as E _. now rewrite <- E.
Defined.


(** ** [list] *)

Lemma foldl_insert_elsewhere (future : list ModuleRec) (acc : gmap string ModuleObj) location :
  Forall (fun x => mr_location x <> location) future ->
  foldl (fun ret x => <[mr_location x := Module_ async_client (PbModule x)]> ret) acc future
    !! location = acc !! location.
Proof.
  intros H. revert acc. induction H as [|x future Hx _ IH]; intros acc; [reflexivity|].
  cbn [foldl]. rewrite IH. now apply lookup_insert_ne.
Qed.

(** X10. [list] returns a dictionary with an entry for each location of
    the listing and no other; the entry wraps the last record of the
    listing at that location and is owned by the [AsyncClient]; when the
    stub raises, [list] raises the same. *)
Theorem list_keeps_the_last_record {St} (stub : Stub St) (w : World St) (s1 : St) :
  (forall future, ListModule stub (srv w) = (s1, Ok future) ->
     exists d,
       AsyncClient.list stub w =
         (Ok d, with_srv s1 (emit (EvCall RpcListModule ListModuleRequest) w)) /\
       (forall pre m post,
          future = (pre ++ m :: post)%list ->
          Forall (fun x => mr_location x <> mr_location m) post ->
          d !! mr_location m = Some (Module_ async_client (PbModule m))) /\
       (forall location,
          Forall (fun x => mr_location x <> location) future -> d !! location = None)) /\
  (forall e, ListModule stub (srv w) = (s1, Raised e) ->
     fst (AsyncClient.list stub w) = Raised e).
Proof.
  split.
  - intros future H. exists (AsyncClient.to_dict future). split; [|split].
    + unfold AsyncClient.list, bind, call, ret. cbn [emit srv]. now rewrite H.
    + intros pre m post -> Hpost. unfold AsyncClient.to_dict.
      rewrite foldl_app. cbn [foldl].
      rewrite (foldl_insert_elsewhere post _ _ Hpost). apply lookup_insert_eq.
    + intros location Hall. unfold AsyncClient.to_dict.
      rewrite (foldl_insert_elsewhere future _ _ Hall). apply lookup_empty.
  - intros e H. unfold AsyncClient.list, bind, call. cbn [emit srv]. now rewrite H.
Qed.

(** With two records at "a", [list] has the second and [get_module] the
    first. *)
Lemma list_keeps_the_last_record_witness :
  (exists d, fst (AsyncClient.list fake world_twice) = Ok d /\
             d !! "a" = Some (Module_ async_client (PbModule module_a6)) /\
             d !! "b" = None) /\
  fst (AsyncClient.get_module fake "a" world_twice) =
    Ok (Module_ async_client (PbModule module_a)).
Proof.
  split; [|reflexivity].
  destruct (proj1 (list_keeps_the_last_record fake world_twice _) _ eq_refl)
    as (d & Hrun & Hlast & Hnone).
  exists d. split; [now rewrite Hrun|]. split.
  - apply (Hlast [module_a] module_a6 []); [reflexivity|constructor].
  - apply Hnone. repeat constructor; discriminate.
Defined.

(** ** The interfaces of a module *)

Lemma get_netif_indexes (self : ModuleObj) (index : Z) :
  get_netif self index =
    match py_index (netifs self) index with
    | Some n => Ok n
    | None => Raised IndexError
    end.
Proof.
  destruct self as [c o]. unfold get_netif. cbn [netifs obj_of client_of].
  rewrite py_index_map. now destruct (py_index (obj_netifs o) index).
Qed.

(** X11. The property [netifs] lists one [NetIf] for each interface of
    the module's record, in order; each has the module's client and the
    module as its parent; [get_netif(index)] is the element of that list
    at [index] as Python indexes a list, and raises [IndexError] when there
    is none.  The same holds of [hostifs] and [get_hostif]. *)
Theorem interfaces_of_a_module (self : ModuleObj) (index : Z) :
  map if_record (netifs self) = mr_netifs (record self) /\
  Forall (fun n => if_client n = client_of self /\ if_module n = self) (netifs self) /\
  get_netif self index =
    match py_index (netifs self) index with
    | Some n => Ok n
    | None => Raised IndexError
    end /\
  map if_record (hostifs self) = mr_hostifs (record self) /\
  Forall (fun n => if_client n = client_of self /\ if_module n = self) (hostifs self) /\
  get_hostif self index =
    match py_index (hostifs self) index with
    | Some n => Ok n
    | None => Raised IndexError
    end.
Proof.
  split; [apply netifs_records|]. split; [|split].
  - destruct self as [c o]. cbn [netifs]. apply Forall_forall. intros n Hn.
    apply list_elem_of_fmap in Hn as (d & -> & _). now split.
  - apply get_netif_indexes.
  - split; [apply hostifs_records|]. split.
    + destruct self as [c o]. cbn [hostifs]. apply Forall_forall. intros n Hn.
      apply list_elem_of_fmap in Hn as (d & -> & _). now split.
    + destruct self as [c o]. unfold get_hostif. cbn [hostifs obj_of client_of].
      rewrite py_index_map. now destruct (py_index (obj_hostifs o) index).
Qed.

Lemma py_index_bounds {A} (l : list A) (i : Z) :
  is_Some (py_index l i) <-> - Z.of_nat (length l) <= i < Z.of_nat (length l).
Proof.
  unfold py_index.
  destruct (Z.leb_spec 0 i) as [Hi|Hi].
  - rewrite lookup_lt_is_Some. lia.
  - destruct (Z.leb_spec 0 (Z.of_nat (length l) + i)) as [Hj|Hj].
    + rewrite lookup_lt_is_Some. lia.
    + split; [intros [x Hx]; discriminate|lia].
Qed.

(** X12. On a module with [n] interfaces, [get_netif(index)] returns a
    child exactly for [-n <= index < n], a negative index counting from
    the end; for any other index it raises [IndexError]. *)
Theorem get_netif_bounds (self : ModuleObj) (index : Z) :
  let n := Z.of_nat (length (mr_netifs (record self))) in
  (- n <= index < n ->
     exists child,
       get_netif self index = Ok child /\
       Some (if_record child) =
         mr_netifs (record self) !! Z.to_nat (if index <? 0 then n + index else index)) /\
  (~ (- n <= index < n) -> get_netif self index = Raised IndexError).
Proof.
  cbn zeta. pose proof (netifs_records self) as Hrec.
  pose proof (get_netif_indexes self index) as Hget.
  pose proof (py_index_bounds (netifs self) index) as Hb.
  assert (Hlen : length (netifs self) = length (mr_netifs (record self))).
  { now rewrite <- Hrec, length_map. }
  rewrite Hlen in Hb. rewrite Hget. split.
  - intros Hin. destruct (proj2 Hb Hin) as [child Hchild]. rewrite Hchild.
    exists child. split; [reflexivity|].
    assert (Hlook : forall k, mr_netifs (record self) !! k = if_record <$> netifs self !! k).
    { intros k. rewrite <- Hrec. apply list_lookup_fmap. }
    rewrite Hlook.
    unfold py_index in Hchild. rewrite Hlen in Hchild.
    destruct (Z.leb_spec 0 index) as [Hi|Hi].
    + destruct (Z.ltb_spec index 0); [lia|]. now rewrite Hchild.
    + destruct (Z.ltb_spec index 0); [|lia].
      destruct (Z.leb_spec 0 (Z.of_nat (length (mr_netifs (record self))) + index));
        [now rewrite Hchild|discriminate].
  - intros Hout. destruct (py_index (netifs self) index) as [child|] eqn:E; [|reflexivity].
    exfalso. apply Hout, Hb. now exists child.
Qed.

Lemma get_netif_bounds_witness :
  (exists child,
     get_netif (Module_ sync_client (PbModule module_a6)) (-1) = Ok child /\
     Some (if_record child) = Some {| if_index := 1; if_oid := 61 |}) /\
  get_netif (Module_ sync_client (PbModule module_a6)) 2 = Raised IndexError.
Proof.
  destruct (get_netif_bounds (Module_ sync_client (PbModule module_a6)) (-1)) as [Hin _].
  destruct (get_netif_bounds (Module_ sync_client (PbModule module_a6)) 2) as [_ Hout].
  split.
  - apply Hin. cbn. lia.
  - apply Hout. cbn. lia.
Defined.


(** ** Shutting the facade down *)

Lemma join_drains {St} (stub : Stub St) (pending : list Command) (out : list PyObj)
    (w : World St) (fuel : nat) :
  (length pending < fuel)%nat ->
  Client.join stub fuel
    {| in_q := (map Some pending ++ [None])%list; out_q := out; alive := true; world := w |} =
  Some {| in_q := []; out_q := (out ++ replies stub w pending)%list; alive := false;
          world := world_after stub w pending |}.
Proof.
  revert out w fuel. induction pending as [|i pending IH]; intros out w fuel Hfuel.
  - destruct fuel as [|n]; [cbn in Hfuel; lia|].
    cbn [map app Client.join alive Client.loop_body in_q out_q world replies world_after].
    destruct n; cbn [Client.join alive]; now rewrite app_nil_r.
  - destruct fuel as [|n]; [cbn in Hfuel; lia|].
    cbn [map app Client.join alive Client.loop_body in_q out_q world replies world_after].
    destruct (Client.invoke stub i w) as [r w1]. cbn [snd].
    rewrite IH by (cbn [length] in Hfuel; lia). now rewrite <- app_assoc.
Qed.

(** X13. [close] on a running worker: every call queued before it is
    handled, in order, and its reply put on [out_q]; then the worker stops
    and [close] returns.  After that the worker handles nothing more: a
    new call is queued and stays queued; its caller takes the oldest reply
    still on [out_q], the reply to an earlier call, or waits for ever when
    there is none.  A second [close] returns at once. *)
Theorem close_handles_what_was_queued {St} (stub : Stub St) (b : Bridge St)
    (pending : list Command) :
  alive b = true ->
  in_q b = map Some pending ->
  let closed :=
    {| in_q := []; out_q := (out_q b ++ replies stub (world b) pending)%list;
       alive := false; world := world_after stub (world b) pending |} in
  Client.close stub b = Some closed /\
  (forall i,
     Client.f stub i closed =
       match out_q closed with
       | [] => None
       | x :: rest =>
           Some (Client.deliver x,
                 {| in_q := [Some i]; out_q := rest; alive := false;
                    world := world closed |})
       end) /\
  Client.close stub closed = Some (Client.in_q_put None closed).
Proof.
  intros Halive Hin. cbn zeta. split; [|split].
  - unfold Client.close, Client.in_q_put. cbn [in_q]. rewrite Halive, Hin.
    apply join_drains. rewrite length_app, length_map. cbn [length]. lia.
  - intros i. cbn [out_q world]. unfold Client.f, Client.in_q_put.
    cbn [in_q out_q alive world app length Client.out_q_get].
    now destruct (out_q b ++ replies stub (world b) pending)%list.
  - reflexivity.
Qed.

(** Closed with nothing queued, the next call waits for ever; closed with
    a [get_module] queued, the next call, a [list], gets the module. *)
Lemma close_handles_what_was_queued_witness :
  Client.close fake (Client.init world0) =
    Some {| in_q := []; out_q := []; alive := false; world := world0 |} /\
  Client.f fake c_list {| in_q := []; out_q := []; alive := false; world := world0 |} = None /\
  exists closed b1,
    Client.close fake (Client.in_q_put (Some (c_get_module "a")) (Client.init world0)) =
      Some closed /\
    Client.f fake c_list closed =
      Some (Ok (VModule (Module_ sync_client (PbModule module_a))), b1).
Proof.
  destruct (close_handles_what_was_queued fake (Client.init world0) [] eq_refl eq_refl)
    as (Hclose & Hwait & _).
  destruct (close_handles_what_was_queued fake
              (Client.in_q_put (Some (c_get_module "a")) (Client.init world0))
              [c_get_module "a"] eq_refl eq_refl) as (Hclose1 & Hstale & _).
  split; [exact Hclose|]. split; [exact (Hwait c_list)|].
  eexists _, _. split; [exact Hclose1|]. rewrite (Hstale c_list). reflexivity.
Defined.

(** ** One caller, many calls *)

(** X14. One caller making calls one after the other through the facade
    gets, for each call and in the order of the calls, the outcome of that
    call as the worker's [AsyncClient] produced it on the world the
    earlier calls left; the facade is at rest again afterwards. *)
Theorem calls_in_a_row {St} (stub : Stub St) (calls : list Command) (w : World St) :
  call_each stub calls (Client.init w) =
    Some (map Client.deliver (replies stub w calls), Client.init (world_after stub w calls)).
Proof.
  revert w. induction calls as [|i calls IH]; intros w; [reflexivity|].
  cbn [call_each replies world_after]. rewrite f_at_rest, IH.
  destruct (Client.invoke stub i w) as [r w1]. reflexivity.
Qed.

(** ** Who owns what comes back *)

Lemma invoke_dict {St} (stub : Stub St) (i : Command) (w w1 : World St) d :
  Client.invoke stub i w = (Ok (VDict d), w1) -> i = c_list.
Proof.
  destruct i; [reflexivity|..]; cbn [Client.invoke]; unfold bind;
    try match goal with
    | |- context [match ?m w with _ => _ end] => destruct (m w) as [[x|e] w0]
    end; cbn [ret raise]; try discriminate.
  destruct (bool_decide _); discriminate.
Qed.

(** X15. Except for [list], every value a call through the facade
    returns holds only objects owned by the facade. *)
Theorem facade_owns_what_it_returns {St} (stub : Stub St) (i : Command) (w : World St)
    (v : Value) (b : Bridge St) :
  i <> c_list ->
  Client.f stub i (Client.init w) = Some (Ok v, b) ->
  Forall (fun c => c = sync_client) (owners v).
Proof.
  intros Hi. rewrite f_at_rest.
  destruct (Client.invoke stub i w) as [[v0|e] w1] eqn:E; cbn [fst snd Client.caught];
    [|discriminate].
  destruct v0 as [| | | | |[c o]|d| |]; cbn [Client.rebind Client.deliver];
    intros [= <- _]; cbn [owners]; try constructor; try reflexivity; try constructor.
  now apply invoke_dict in E.
Qed.

Lemma facade_owns_what_it_returns_witness :
  exists v b,
    Client.f fake (c_get_module "a") (Client.init world0) = Some (Ok v, b) /\
    owners v = [sync_client].
Proof.
  destruct (Client.f fake (c_get_module "a") (Client.init world0)) as [[[v|e] b]|] eqn:E;
    try discriminate E.
  exists v, b. split; [reflexivity|].
  assert (Hi : c_get_module "a" <> c_list) by discriminate.
  pose proof (facade_owns_what_it_returns fake (c_get_module "a") world0 v b Hi E) as H.
  injection E as <- _. reflexivity.
Defined.

(** ** [monitor] at work *)

Lemma loop_follows {St} (stub : Stub St) (obj : TAIObject) (m : AttributeMetadata)
    (callback : Callback) (msgs : list string) (s1 : St) (fuel : nat) (w : World St) :
  yields stub (srv w) msgs s1 ->
  Forall (fun msg => callback obj m msg = None) msgs ->
  AsyncClient.monitor_loop stub (length msgs + fuel) obj m callback w =
    AsyncClient.monitor_loop stub fuel obj m callback
      {| srv := s1;
         trace := (trace w ++ repeat (EvRecv RpcMonitor) (length msgs))%list;
         heap := heap w |}.
Proof.
  revert w. induction msgs as [|msg msgs IH]; intros w Hy Hcb.
  - cbn [yields] in Hy. subst s1. destruct w as [s t h].
    cbn [length repeat Nat.add srv trace heap]. now rewrite app_nil_r.
  - destruct Hy as (s0 & Hrecv & Hy). apply Forall_cons in Hcb as [Hmsg Hcb].
    cbn [length Nat.add AsyncClient.monitor_loop].
    unfold bind at 1. unfold AsyncClient.recv. rewrite Hrecv, Hmsg.
    rewrite IH; [|exact Hy|exact Hcb].
    unfold emit, with_srv. cbn [srv trace heap repeat]. now rewrite <- app_assoc.
Qed.

(** X16. Once the descriptor [monitor] resolves has the usage
    ["<notification>"], [monitor] sends one request with the object's id,
    the descriptor's id and the caller's [json] flag, and then receives
    message after message, handing each to the callback with the object
    and the descriptor.  As long as the callback returns, [monitor] goes
    on with the next message and the stream stays open; the first message
    on which the callback raises ends [monitor] with that exception, and
    so does a failure of the stream: then the stream is released. *)
Theorem monitor_hands_messages_to_the_callback {St} (stub : Stub St) (obj : TAIObject)
    (attr_id : AttrRef) (callback : Callback) (j : bool) (w w1 : World St)
    (m : AttributeMetadata) (s2 s3 : St) (msgs : list string) :
  let req := MonitorRequest (oid obj) (md_attr_id m)
               (with_json set_default_serialize_option j) in
  let after (s : St) (n : nat) (t : list Event) :=
    {| srv := s;
       trace := (trace w1 ++ EvSend req :: repeat (EvRecv RpcMonitor) n ++ t)%list;
       heap := heap w1 |} in
  AsyncClient.get_attribute_metadata stub (object_type obj) attr_id (oid obj) (PyStr EmptyString)
    (emit (EvOpen RpcMonitor) w) = (Ok m, w1) ->
  md_usage m = "<notification>" ->
  Monitor stub req (srv w1) = (s2, None) ->
  yields stub s2 msgs s3 ->
  Forall (fun msg => callback obj m msg = None) msgs ->
  AsyncClient.monitor stub (length msgs) obj attr_id callback j w =
    (Ok StillRunning, after s3 (length msgs) []) /\
  (forall msg e s4 fuel,
     MonitorRecv stub s3 = (s4, Ok msg) -> callback obj m msg = Some e ->
     AsyncClient.monitor stub (length msgs + S fuel) obj attr_id callback j w =
       (Raised e, after s4 (S (length msgs)) [EvClose RpcMonitor])) /\
  (forall e s4 fuel,
     MonitorRecv stub s3 = (s4, Raised e) ->
     AsyncClient.monitor stub (length msgs + S fuel) obj attr_id callback j w =
       (Raised e, after s4 (S (length msgs)) [EvClose RpcMonitor])).
Proof.
  cbn zeta. intros Hmeta Husage Hsend Hy Hcb.
  set (req := MonitorRequest (oid obj) (md_attr_id m)
                (with_json set_default_serialize_option j)) in *.
  set (w2 := {| srv := s2; trace := (trace w1 ++ [EvSend req])%list; heap := heap w1 |}).
  assert (Hrun : forall fuel,
            AsyncClient.monitor stub fuel obj attr_id callback j w =
            match AsyncClient.monitor_loop stub fuel obj m callback w2 with
            | (Ok StillRunning, w3) => (Ok StillRunning, w3)
            | (Raised e, w3) => (Raised e, emit (EvClose RpcMonitor) w3)
            end).
  { intros fuel. unfold AsyncClient.monitor, AsyncClient.open_while_running.
    rewrite (bind_ok _ _ _ _ _ Hmeta), Husage. cbn [String.eqb Ascii.eqb Bool.eqb negb].
    unfold bind at 1. unfold AsyncClient.send. cbn [emit srv trace heap]. fold req.
    rewrite Hsend. reflexivity. }
  assert (Hloop : forall fuel,
            AsyncClient.monitor_loop stub (length msgs + fuel) obj m callback w2 =
            AsyncClient.monitor_loop stub fuel obj m callback
              {| srv := s3;
                 trace := (trace w2 ++ repeat (EvRecv RpcMonitor) (length msgs))%list;
                 heap := heap w2 |}).
  { intros fuel. now apply loop_follows. }
  assert (Hlast : forall n, (repeat (EvRecv RpcMonitor) n ++ [EvRecv RpcMonitor])%list =
                            repeat (EvRecv RpcMonitor) (S n)).
  { intros n. now rewrite <- repeat_cons. }
  split; [|split].
  - rewrite Hrun. rewrite <- (Nat.add_0_r (length msgs)) at 1. rewrite Hloop.
    cbn [AsyncClient.monitor_loop ret trace heap w2]. rewrite app_nil_r.
    now rewrite <- app_assoc.
  - intros msg e s4 fuel Hrecv He. rewrite Hrun, Hloop.
    cbn [AsyncClient.monitor_loop]. unfold bind, AsyncClient.recv. cbn [srv].
    rewrite Hrecv, He. unfold raise, emit, with_srv. cbn [srv trace heap w2].
    rewrite <- Hlast. now rewrite <- !app_assoc.
  - intros e s4 fuel Hrecv. rewrite Hrun, Hloop.
    cbn [AsyncClient.monitor_loop]. unfold bind, AsyncClient.recv. cbn [srv].
    rewrite Hrecv. unfold emit, with_srv. cbn [srv trace heap w2].
    rewrite <- Hlast. now rewrite <- !app_assoc.
Qed.

(** On the counting service the callback returns on "0" and "1" and
    raises on "2": [monitor] is still running after two messages and ends
    on the third. *)
Lemma monitor_hands_messages_to_the_callback_witness :
  AsyncClient.monitor ticker 2 object_a (ById 3) until_two false world_tick =
    (Ok StillRunning,
     {| srv := 2%nat;
        trace := [EvOpen RpcMonitor; EvOpen RpcGetAttributeMetadata;
                  EvSend (GetAttributeMetadataRequest MODULE 5 EmptyString 3 EmptyString
                            set_default_serialize_option);
                  EvRecv RpcGetAttributeMetadata; EvClose RpcGetAttributeMetadata;
                  EvSend (MonitorRequest 5 9 set_default_serialize_option);
                  EvRecv RpcMonitor; EvRecv RpcMonitor];
        heap := ∅ |}) /\
  fst (AsyncClient.monitor ticker 10 object_a (ById 3) until_two false world_tick) =
    Raised (PyException "2").
Proof.
  assert (Hy : yields ticker 0%nat ["0"; "1"] 2%nat).
  { exists 1%nat. split; [reflexivity|]. exists 2%nat. split; reflexivity. }
  assert (Hcb : Forall (fun msg => until_two object_a descriptor_9 msg = None) ["0"; "1"]).
  { repeat constructor. }
  destruct (monitor_hands_messages_to_the_callback ticker object_a (ById 3) until_two false
              world_tick _ descriptor_9 0%nat 2%nat ["0"; "1"] eq_refl eq_refl eq_refl Hy Hcb)
    as (Hrunning & Hraise & _).
  split.
  - exact Hrunning.
  - pose proof (Hraise "2" (PyException "2") 3%nat 7%nat eq_refl eq_refl) as H.
    cbn [length Nat.add] in H. now rewrite H.
Defined.

(** ** [get_attribute_capability] *)

(** X17. [get_attribute_capability] by name looks the name up inside its
    own stream, with the object type 0 and the object's id; when the
    lookup answers a descriptor with status 0 and leaves the service as it
    is, the outcome and the state of the service are those of the call by
    the descriptor's id, which makes no lookup. *)
Theorem capability_by_name {St} (stub : Stub St) (o : Z) (n : string)
    (m : AttributeMetadata) (msg : string) (j : bool) (w : World St) :
  GetAttributeMetadata stub (by_name_request UNKNOWN o n) (srv w) = (srv w, Reply m 0 msg) ->
  let req := GetAttributeCapabilityRequest o (md_attr_id m)
               (with_json set_default_serialize_option j) in
  let by_name := AsyncClient.get_attribute_capability stub o (ByName n) j w in
  let by_id := AsyncClient.get_attribute_capability stub o (ById (md_attr_id m)) j w in
  fst by_name = fst by_id /\
  srv (snd by_name) = srv (snd by_id) /\
  trace (snd by_name) =
    (trace w ++ [EvOpen RpcGetAttributeCapability;
                 EvOpen RpcGetAttributeMetadata;
                 EvSend (by_name_request UNKNOWN o n);
                 EvRecv RpcGetAttributeMetadata;
                 EvClose RpcGetAttributeMetadata;
                 EvSend req;
                 EvRecv RpcGetAttributeCapability;
                 EvClose RpcGetAttributeCapability])%list /\
  trace (snd by_id) =
    (trace w ++ [EvOpen RpcGetAttributeCapability; EvSend req;
                 EvRecv RpcGetAttributeCapability;
                 EvClose RpcGetAttributeCapability])%list.
Proof.
  intros Hname. cbn zeta.
  unfold AsyncClient.get_attribute_capability, open. unfold bind, ret.
  rewrite (lookup_by_name_runs stub UNKNOWN o n (emit (EvOpen RpcGetAttributeCapability) w)
             m msg Hname).
  rewrite !send_recv_runs. unfold emit. cbn [srv trace heap fst snd metadata_events].
  unfold by_name_request. rewrite <- !app_assoc. now repeat split.
Qed.

Lemma capability_by_name_witness :
  fst (AsyncClient.get_attribute_capability fake 5 (ByName "index") true world0) =
    fst (AsyncClient.get_attribute_capability fake 5 (ById 2) true world0).
Proof.
  exact (proj1 (capability_by_name fake 5 "index" index_descriptor EmptyString true world0
                  eq_refl)).
Defined.


(** ** The caller's lists are read, not written *)

Lemma keeps_set_attributes {St} (stub : Stub St) t o attributes :
  keeps_heap (AsyncClient.set_attributes stub t o attributes).
Proof.
  induction attributes as [|[attr value] rest IH]; cbn [AsyncClient.set_attributes]; keeps.
Qed.
#[local] Hint Resolve keeps_set_attributes : heap.

Lemma keeps_set_log_level {St} (stub : Stub St) l api :
  keeps_heap (AsyncClient.set_log_level stub l api).
Proof.
  unfold AsyncClient.set_log_level. keeps. intros w. cbn [emit srv].
  match goal with
  | |- context [SetLogLevel stub ?r ?s] => destruct (SetLogLevel stub r s) as [s1 [e|]]
  end; reflexivity.
Qed.

Lemma keeps_monitor_loop {St} (stub : Stub St) fuel obj m callback :
  keeps_heap (AsyncClient.monitor_loop stub fuel obj m callback).
Proof.
  induction fuel as [|n IH]; cbn [AsyncClient.monitor_loop]; [keeps|].
  apply keeps_bind; [|intros msg; destruct (callback obj m msg); keeps].
  intros w. unfold AsyncClient.recv. now destruct (MonitorRecv stub (srv w)).
Qed.

(** X18. Of all the calls through [Client], only [create_module] changes a
    list of the caller: every other call, [create] included, leaves every
    list object as it was, however the call ends; so does [monitor]. *)
Theorem only_create_module_appends {St} (stub : Stub St) (i : Command) (w : World St)
    (fuel : nat) (obj : TAIObject) (attr_id : AttrRef) (callback : Callback) (j : bool) :
  (forall location attrs, i <> c_create_module location attrs) ->
  heap (snd (Client.invoke stub i w)) = heap w /\
  heap (snd (AsyncClient.monitor stub fuel obj attr_id callback j w)) = heap w.
Proof.
  intros Hi. split.
  - revert w. change (keeps_heap (Client.invoke stub i)).
    destruct i; cbn [Client.invoke];
      try (apply keeps_bind; [|intros ?; apply keeps_ret]);
      try solve [auto with heap].
    + unfold AsyncClient.list_attribute_metadata. keeps.
    + unfold AsyncClient.get_attribute_capability. keeps.
    + now destruct (Hi location attrs).
    + unfold AsyncClient.remove. keeps.
    + unfold AsyncClient.set, AsyncClient.set_multiple. keeps.
    + unfold AsyncClient.set_multiple. keeps.
    + unfold AsyncClient.get_multiple. keeps.
    + apply keeps_set_log_level.
    + keeps.
  - unfold AsyncClient.monitor, AsyncClient.open_while_running.
    match goal with
    | |- context [match ?body (emit (EvOpen RpcMonitor) w) with _ => _ end] =>
        assert (Hbody : keeps_heap body)
    end.
    { apply keeps_bind; [keeps|intros m].
      destruct (negb _); [keeps|].
      apply keeps_bind; [|intros _; apply keeps_monitor_loop].
      intros w0. unfold AsyncClient.send. cbn [emit srv].
      match goal with
      | |- context [Monitor stub ?r ?s] => destruct (Monitor stub r s) as [s1 [e|]]
      end; reflexivity. }
    specialize (Hbody (emit (EvOpen RpcMonitor) w)).
    match goal with
    | |- context [match ?x with _ => _ end] => destruct x as [[[]|e] w1]
    end; exact Hbody.
Qed.

Lemma only_create_module_appends_witness :
  heap (snd (Client.invoke fake (c_create (Tag NETIF) 0 5) world_index)) = heap world_index.
Proof.
  assert (Hi : forall location attrs,
             c_create (Tag NETIF) 0 5 <> c_create_module location attrs) by discriminate.
  exact (proj1 (only_create_module_appends fake (c_create (Tag NETIF) 0 5) world_index
                  0 object_a (ById 3) quiet false Hi)).
Defined.


(** ** [create_netif] and [create_hostif] on a module of the facade *)



